(** * Maintenance scripts of MaxantAgency: a shallow embedding

    Two batch text editors are embedded here:

    - [FunctionStripper]: [website-audit-tool/safe-refactor.py], which
      removes the email-generation code from [analyzer.js] in ten
      line-oriented stages;
    - [FieldInjector]: [analysis-engine/add-source-fields.py], which adds
      [source] / [source_type] fields to the issue blocks of the analyzer
      files.

    A Python [str] is a [list ascii] (one [ascii] per character, code
    points below 256), a file read with [readlines] is a list of such
    lines, each keeping its final newline.  Python integers that can be
    negative ([brace_count], [skip_until]) are [Z]; indices and counts are
    [nat]. *)

From Stdlib Require Import ZArith Ascii String List Bool Lia DecimalString.
From stdpp Require Import base list strings gmap.
Import ListNotations.

Local Open Scope nat_scope.

(** ** Text *)

Module Text.

Abbreviation text := (list ascii).

(** A literal. *)
Definition txt (s : string) : text := list_ascii_of_string s.

Definition nl : ascii := "010"%char.

(** A line of a file, as [readlines] yields it. *)
Definition ln (s : string) : text := txt s ++ [nl].

(** [s.startswith(p)]. *)
Fixpoint starts_with (p s : text) : bool :=
  match p, s with
  | [], _ => true
  | _ :: _, [] => false
  | a :: p', b :: s' => Ascii.eqb a b && starts_with p' s'
  end.

(** [needle in hay]. *)
Fixpoint contains (needle hay : text) : bool :=
  starts_with needle hay ||
  match hay with
  | [] => false
  | _ :: hay' => contains needle hay'
  end.

(** [str(n)] for a non-negative integer. *)
Definition str_of_nat (n : nat) : text :=
  txt (NilZero.string_of_uint (Nat.to_uint n)).

(** [s.replace(old, new)] for a non-empty [old]: occurrences are replaced
    from the left and do not overlap.  [skip] counts the characters of the
    occurrence just replaced that are still to be passed over. *)
Fixpoint replace_from (old new : text) (skip : nat) (s : text) : text :=
  match s with
  | [] => []
  | c :: s' =>
      match skip with
      | S k => replace_from old new k s'
      | O =>
          if starts_with old s
          then new ++ replace_from old new (length old - 1) s'
          else c :: replace_from old new 0 s'
      end
  end.

Definition replace (old new s : text) : text := replace_from old new 0 s.

(** Characters matched by [\s] in a [str] pattern, among the code points
    below 256: tab to carriage return, the four separators 28 to 31, the
    space, NEL and the no-break space. *)
Definition is_space (c : ascii) : bool :=
  let n := nat_of_ascii c in
  ((9 <=? n) && (n <=? 13)) || ((28 <=? n) && (n <=? 32))
  || (n =? 133) || (n =? 160).

(** Greedy [\s*]: the text left after the leading white space. *)
Fixpoint skip_spaces (s : text) : text :=
  match s with
  | c :: s' => if is_space c then skip_spaces s' else s
  | [] => []
  end.

End Text.
Import Text.

(** ** Function-Stripper *)

Module FunctionStripper.

Abbreviation line := (list ascii).

(** An entry of [removed_lines]. *)
Definition removed_record := (nat * text)%type.

(** *** The brace scan (lines 51 to 71 of [safe-refactor.py]) *)

(** Outcome of the character loop over one line: the test
    [started and brace_count == 0] succeeded, or the line ended with the
    counters as given. *)
Inductive scan_result :=
| Closed
| Open (brace_count : Z) (started : bool).

Fixpoint scan_chars (brace_count : Z) (started : bool) (chars : text)
  : scan_result :=
  match chars with
  | [] => Open brace_count started
  | char :: rest =>
      let '(bc, st) :=
        if Ascii.eqb char "{" then ((brace_count + 1)%Z, true)
        else if Ascii.eqb char "}" then ((brace_count - 1)%Z, started)
        else (brace_count, started) in
      if st && (bc =? 0)%Z then Closed else scan_chars bc st rest
  end.

(** The loop [for j in range(i, len(lines))].  [skip_until] is the value
    the variable has when the scan starts: the test [if skip_until > 0:
    break] after the character loop reads it whether or not this scan has
    assigned it. *)
Fixpoint scan_lines (skip_until : Z) (brace_count : Z) (started : bool)
    (j : nat) (rest : list line) : option nat :=
  match rest with
  | [] => None
  | l :: rest' =>
      match scan_chars brace_count started l with
      | Closed => Some j
      | Open bc st =>
          if (0 <? skip_until)%Z then None
          else scan_lines skip_until bc st (S j) rest'
      end
  end.

Definition find_end (skip_until : Z) (lines : list line) (i : nat)
  : option nat :=
  scan_lines skip_until 0 false i (drop i lines).

(** The loop [while start_line > 0 and comment(lines[start_line-1])]. *)
Fixpoint walk_back (is_comment : line -> bool) (lines : list line)
    (start_line : nat) : nat :=
  match start_line with
  | O => O
  | S p =>
      if is_comment (nth p lines []) then walk_back is_comment lines p
      else start_line
  end.

(** *** One named-function-removal stage *)

Record loop_state := LoopState {
  new_lines : list line;
  skip_until : Z;
  removed_lines : list removed_record
}.

Section Stage.

(** The substring that identifies the declaration, the name printed in the
    audit record and the test for a comment line: the three things in
    which steps 2, 3 and 4 to 6 differ. *)
Variable needle : text.
Variable func_name : text.
Variable is_comment : line -> bool.

Definition description (j start_line : nat) : text :=
  func_name ++ txt " function (" ++ str_of_nat (j - start_line + 1)
            ++ txt " lines)".

Definition stage_body (lines : list line) (st : loop_state) (i : nat)
    (l : line) : loop_state :=
  if (0 <? skip_until st)%Z && (Z.of_nat i <? skip_until st)%Z then st
  else if contains needle l then
    match find_end (skip_until st) lines i with
    | Some j =>
        let start_line := walk_back is_comment lines i in
        LoopState (new_lines st) (Z.of_nat j + 1)
          (removed_lines st ++ [(start_line + 1, description j start_line)])
    | None => st
    end
  else LoopState (new_lines st ++ [l]) (skip_until st) (removed_lines st).

(** [for i, line in enumerate(lines)], from index [i] on. *)
Fixpoint stage_loop (lines : list line) (i : nat) (rest : list line)
    (st : loop_state) : loop_state :=
  match rest with
  | [] => st
  | l :: rest' => stage_loop lines (S i) rest' (stage_body lines st i l)
  end.

Definition remove_function (lines : list line)
    (removed : list removed_record) : list line * list removed_record :=
  let st := stage_loop lines 0 lines (LoopState [] (-1) removed) in
  (new_lines st, removed_lines st).

End Stage.

(** *** The stages, in the order [main] runs them *)

(** Step 1: the two import lines. *)
Fixpoint step1_loop (i : nat) (rest : list line)
    (removed : list removed_record) : list line * list removed_record :=
  match rest with
  | [] => ([], removed)
  | l :: rest' =>
      let line_num := i + 1 in
      if contains (txt "createDraft") l && contains (txt "drafts-gmail") l
      then step1_loop (S i) rest'
             (removed ++ [(line_num, txt "createDraft import")])
      else if contains (txt "sanitizeHumanizedEmail") l
              && contains (txt "email-sanitizer") l
      then step1_loop (S i) rest'
             (removed ++ [(line_num, txt "email-sanitizer import")])
      else
        let '(kept, removed') := step1_loop (S i) rest' removed in
        (l :: kept, removed')
  end.

Definition step1 (lines : list line) (removed : list removed_record) :=
  step1_loop 0 lines removed.

(** The comment test of step 2 and the one of steps 3 to 6. *)
Definition is_comment2 (l : line) : bool :=
  contains (txt "/**") l || contains (txt "*") l.

Definition is_comment3 (l : line) : bool :=
  contains (txt "/**") l || contains (txt "* ") l || contains (txt "*/") l.

Definition step2 :=
  remove_function (txt "function extractContactInfo")
                  (txt "extractContactInfo") is_comment2.

Definition step3 :=
  remove_function (txt "async function humanizeEmailWithAI")
                  (txt "humanizeEmailWithAI") is_comment3.

(** Steps 4 to 6: the body of [for func_name in [...]]. *)
Definition step_named (func_name : text) :=
  remove_function (txt "function " ++ func_name) func_name is_comment3.

Definition func_names : list text :=
  [txt "generateCritiqueReasoning"; txt "qaReviewEmail"; txt "generateEmail"].

Definition steps4to6 (lines : list line) (removed : list removed_record)
  : list line * list removed_record :=
  fold_left (fun '(ls, rm) name => step_named name ls rm)
            func_names (lines, removed).

(** Step 7: the assignment [lines[i] = ...] keeps every position. *)
Definition step7_line (l : line) : line :=
  if contains (txt "const leadGrade = result.emailQA") l then []
  else if contains (txt "`lead-${leadGrade}`") l
  then replace (txt "`lead-${leadGrade}`") (txt "`grade-${websiteGrade}`") l
  else l.

Definition step7 (lines : list line) : list line := map step7_line lines.

(** Step 8: the region between the email file writes and the client info. *)
Definition is_start8 (l : line) : bool :=
  contains (txt "// 3. Save email content") l
  || contains (txt "// 3b. Save critique reasoning") l
  || contains (txt "// 3c. Save QA review") l.

Definition is_end8 (l : line) : bool :=
  contains (txt "// 4. Save client info") l
  || contains (txt "// 3. Save client info") l.

Fixpoint step8_loop (skip_mode : bool) (rest : list line) : list line :=
  match rest with
  | [] => []
  | l :: rest' =>
      let skip_mode := if is_start8 l then true else skip_mode in
      if is_end8 l then l :: step8_loop false rest'
      else if negb skip_mode then l :: step8_loop skip_mode rest'
      else step8_loop skip_mode rest'
  end.

Definition step8 (lines : list line) : list line := step8_loop false lines.

(** Step 9: the email workflow inside [analyzeWebsite]. *)
Fixpoint step9_loop (skip_mode : bool) (rest : list line) : list line :=
  match rest with
  | [] => []
  | l :: rest' =>
      let skip_mode :=
        if contains (txt "Step 10: Generate email") l then true
        else skip_mode in
      let skip_mode :=
        if skip_mode && (contains (txt "// Add result") l
                         || contains (txt "const result = {") l)
        then false else skip_mode in
      if negb skip_mode then l :: step9_loop skip_mode rest'
      else step9_loop skip_mode rest'
  end.

Definition step9 (lines : list line) : list line := step9_loop false lines.

(** Step 10.  [re.match(r'\s*word', line)] anchors at the start of the line
    only; the literal after [\s*] never begins with white space, so the
    greedy [\s*] takes all the leading white space. *)
Definition re_match_field (word : string) (l : line) : bool :=
  starts_with (txt word) (skip_spaces l).

Definition drops10 (l : line) : bool :=
  re_match_field "email: email," l
  || re_match_field "emailQA:" l
  || re_match_field "draft:" l
  || (contains (txt "critiqueReasoning:") l && contains (txt "result.") l)
  || contains (txt "leadGrade: leadGrade,") l
  || contains (txt "extractContactInfo(") l
  || re_match_field "emailWriting:" l
  || (re_match_field "critiqueReasoning:" l && contains (txt "true") l)
  || (re_match_field "qaReview:" l && contains (txt "true") l)
  || re_match_field "cheapModel:" l.

Fixpoint step10 (lines : list line) : list line :=
  match lines with
  | [] => []
  | l :: rest => if drops10 l then step10 rest else l :: step10 rest
  end.

(** *** [main] *)

(** What a run leaves behind.  The file is written by
    [f.writelines(lines)] and the two counts are printed before the
    percentage of the summary is computed.  That division by
    [original_count] raises [ZeroDivisionError] when no line was read, and
    nothing more is printed then: [summary] is [None].  Otherwise it holds
    the number of removed lines and the audit list that the end of the
    summary prints.  The percentage itself, a float, is not part of the
    report. *)
Record report := Report {
  written : text;
  original_count : nat;
  final_count : nat;
  summary : option (Z * list removed_record)
}.

(** Stages 1 to 10 on the lines read. *)
Definition strip (lines : list line) : list line * list removed_record :=
  let '(lines, rm) := step1 lines [] in
  let '(lines, rm) := step2 lines rm in
  let '(lines, rm) := step3 lines rm in
  let '(lines, rm) := steps4to6 lines rm in
  let lines := step7 lines in
  let lines := step8 lines in
  let lines := step9 lines in
  let lines := step10 lines in
  (lines, rm).

Definition main (lines : list line) : report :=
  let '(final, rm) := strip lines in
  let original_count := length lines in
  let final_count := length final in
  let removed := (Z.of_nat original_count - Z.of_nat final_count)%Z in
  Report (concat final) original_count final_count
         (if original_count =? 0 then None else Some (removed, rm)).

End FunctionStripper.

(** ** Field-Injector *)

Module FieldInjector.

(** The embedded list of (file, source name, source type). *)
Definition analyzers : list (string * string * string) :=
  [ ("analyzers/seo-analyzer.js", "seo-analyzer", "technical");
    ("analyzers/content-analyzer.js", "content-analyzer", "technical");
    ("analyzers/accessibility-analyzer.js", "accessibility-analyzer",
     "accessibility");
    ("analyzers/social-analyzer.js", "social-analyzer", "social");
    ("analyzers/desktop-visual-analyzer.js", "desktop-visual-analyzer",
     "visual");
    ("analyzers/mobile-visual-analyzer.js", "mobile-visual-analyzer",
     "visual");
    ("analyzers/unified-visual-analyzer.js", "unified-visual-analyzer",
     "visual");
    ("analyzers/unified-technical-analyzer.js", "unified-technical-analyzer",
     "technical") ]%string.

(** *** The two patterns

    A matcher takes the text at the position tried and answers with the
    lengths of group 1 and group 2 when the pattern matches there.  Neither
    pattern looks behind, and neither can match the empty text. *)

Definition dquote : ascii := "034"%char.

(** The class of the two quote characters, single and double. *)
Definition is_quote (c : ascii) : bool :=
  Ascii.eqb c "'" || Ascii.eqb c dquote.

Definition is_backtick (c : ascii) : bool := Ascii.eqb c "`".

(** A literal at the head of the text: what follows it. *)
Definition lit (p s : text) : option text :=
  if starts_with p s then Some (drop (length p) s) else None.

(** An alternation of literals, tried in order.  In both patterns the
    alternatives start with different letters, so at most one can match and
    the order of the tries cannot be observed. *)
Fixpoint alt (ps : list text) (s : text) : option text :=
  match ps with
  | [] => None
  | p :: ps' =>
      match lit p s with
      | Some r => Some r
      | None => alt ps' s
      end
  end.

(** One character of a class. *)
Definition one (cls : ascii -> bool) (s : text) : option text :=
  match s with
  | c :: r => if cls c then Some r else None
  | [] => None
  end.

(** Group 2, [([\s\n]*})]: the closing brace cannot be taken for white
    space, so the greedy star never gives a character back. *)
Definition closing (s : text) : option text :=
  one (fun c => Ascii.eqb c "}") (skip_spaces s).

(** [.*?] followed by a closing character of class [cls] and by group 2:
    the lazy star stops at the first character of the class after which
    group 2 matches, and cannot pass a newline.  The answer is the text
    after the closing character, where group 2 begins. *)
Fixpoint lazy_until (cls : ascii -> bool) (s : text) : option text :=
  match s with
  | [] => None
  | c :: r =>
      if cls c && bool_decide (is_Some (closing r)) then Some r
      else if Ascii.eqb c nl then None
      else lazy_until cls r
  end.

(** The lengths of the groups, from the text where the match starts, where
    group 2 starts and where the match ends. *)
Definition groups (s g2 r : text) : nat * nat :=
  (length s - length g2, length g2 - length r).

(** The pattern of pass A, with Q for the class of the two quotes:
    [(priority:\s*Q(?:critical|high|medium|low)Q)([\s\n]*})] *)
Definition match_priority (s : text) : option (nat * nat) :=
  s1 ← lit (txt "priority:") s;
  s2 ← one is_quote (skip_spaces s1);
  s3 ← alt [txt "critical"; txt "high"; txt "medium"; txt "low"] s2;
  g2 ← one is_quote s3;
  r ← closing g2;
  Some (groups s g2 r).

(** The pattern of pass B, with Q for the class of the two quotes:
    [((?:recommendation|technical_details):\s*(?:Q.*?Q|`.*?`))([\s\n]*})]
    The first character after the white space selects the alternative: a
    quote the first, a backtick the second. *)
Definition match_last_field (s : text) : option (nat * nat) :=
  s1 ← alt [txt "recommendation"; txt "technical_details"] s;
  s2 ← lit (txt ":") s1;
  g2 ← match skip_spaces s2 with
       | c :: s3 =>
           if is_quote c then lazy_until is_quote s3
           else if is_backtick c then lazy_until is_backtick s3
           else None
       | [] => None
       end;
  r ← closing g2;
  Some (groups s g2 r).

(** *** [re.sub] *)

(** The text put between group 1 and group 2 by both replacement
    templates.  The names of [analyzers] hold no backslash, so the only
    escapes of the templates are the two group references and the
    newlines. *)
Definition inserted (source source_type : text) : text :=
  txt "," ++ [nl] ++ txt "      source: '" ++ source ++ txt "',"
  ++ [nl] ++ txt "      source_type: '" ++ source_type ++ txt "'".

Section Sub.

Variable pattern : text -> option (nat * nat).
Variable ins : text.

(** The scan of [re.sub]: at each position not inside the previous match
    the pattern is tried; a match is replaced by group 1, the inserted
    text and group 2, and the scan resumes where the match ends.  [skip]
    counts the characters of the last match still to be passed over. *)
Fixpoint sub_from (skip : nat) (s : text) : text :=
  match s with
  | [] => []
  | c :: s' =>
      match skip with
      | S k => sub_from k s'
      | O =>
          match pattern s with
          | Some (n1, n2) =>
              take n1 s ++ ins ++ take n2 (drop n1 s)
              ++ sub_from (n1 + n2 - 1) s'
          | None => c :: sub_from 0 s'
          end
      end
  end.

Definition sub (s : text) : text := sub_from 0 s.

End Sub.

Definition pass_a (source source_type content : text) : text :=
  sub match_priority (inserted source source_type) content.

Definition pass_b (source source_type content : text) : text :=
  sub match_last_field (inserted source source_type) content.

(** *** The loop over [analyzers] *)

(** [f"source: '{source}'"] *)
Definition marker (source : text) : text :=
  txt "source: '" ++ source ++ txt "'".

(** The files under the working directory, by path: [os.path.exists] is
    the presence of the key, [f.read()] the lookup and [f.write] an
    insertion.  A file is held as the string that [f.read()] returns and
    that [f.write] is given.  The lines printed are collected in order. *)
Record world := World {
  files : gmap string text;
  printed : list text
}.

Definition print (w : world) (msg : text) : world :=
  World (files w) (printed w ++ [msg]).

Definition process (w : world) (spec : string * string * string) : world :=
  let '(filename, source, source_type) := spec in
  match files w !! filename with
  | None => print w (txt "Skipped " ++ txt filename ++ txt " - file not found")
  | Some content =>
      if contains (marker (txt source)) content
      then print w (txt "Skipped " ++ txt filename
                    ++ txt " - already has source fields")
      else
        let updated_content := pass_a (txt source) (txt source_type) content in
        let updated_content :=
          pass_b (txt source) (txt source_type) updated_content in
        if bool_decide (updated_content ≠ content)
        then print (World (<[filename := updated_content]> (files w))
                          (printed w))
                   (txt "Updated " ++ txt filename ++ txt " - added source fields")
        else print w (txt "No changes needed for " ++ txt filename)
  end.

Definition run (w : world) : world :=
  print (fold_left process analyzers w) (txt "Done!").

(** The procedure on the text of one file: what the file holds afterwards. *)
Definition inject (source source_type content : text) : text :=
  if contains (marker source) content then content
  else pass_b source source_type (pass_a source source_type content).

(** The effect of [process] on the file at [path], if there is one. *)
Definition inject_at (spec : string * string * string) (path : string)
    (content : option text) : option text :=
  let '(filename, source, source_type) := spec in
  if decide (filename = path)
  then inject (txt source) (txt source_type) <$> content
  else content.

End FieldInjector.

(** ** The extent of a function, stated on the text

    These definitions do not run the scan: they say, on the characters of
    the lines, where a function ends.  The theorems below compare them
    with [find_end]. *)

Module Extent.

(** The delimiter balance of a text: ['{'] counts +1 and ['}'] counts -1. *)
Fixpoint balance (p : text) : Z :=
  match p with
  | [] => 0
  | c :: r =>
      ((if Ascii.eqb c "{" then 1 else if Ascii.eqb c "}" then -1 else 0)
       + balance r)%Z
  end.

(** The text holds an opening brace. *)
Definition has_open (p : text) : bool := existsb (Ascii.eqb "{") p.

(** The balance was positive after some prefix of the text. *)
Definition was_positive (p : text) : Prop :=
  exists q, q `prefix_of` p /\ (0 < balance q)%Z.

(** The characters read when the scan started on line [i] has just read
    character [c] of line [j]. *)
Definition scanned (lines : list text) (i j c : nat) : text :=
  concat (take (j - i) (drop i lines)) ++ take (S c) (nth j lines []).

(** On line [j] the balance counted from line [i] is zero after a character
    up to which [seen] holds. *)
Definition returns_to_zero (seen : text -> Prop) (lines : list text)
    (i j : nat) : Prop :=
  exists c, c < length (nth j lines []) /\
            balance (scanned lines i j c) = 0%Z /\
            seen (scanned lines i j c).

(** [j] is the first line from [i] on with property [P]. *)
Definition first_line (P : nat -> Prop) (i j : nat) : Prop :=
  i <= j /\ P j /\ forall k, i <= k < j -> ~ P k.

(** The end of the extent in the words of the specification: the first
    line on which the balance returns to zero after having been positive. *)
Definition spec_end (lines : list text) (i j : nat) : Prop :=
  first_line (returns_to_zero was_positive lines i) i j.

(** The same with the test the scan makes: an opening brace was read. *)
Definition scan_end (lines : list text) (i j : nat) : Prop :=
  first_line (returns_to_zero (fun p => has_open p = true) lines i) i j.

(** The scan seen from inside: after the text [pre] has been read, the
    character [c] of the line [l] brings the balance to zero with an opening
    brace read. *)
Definition closes_on (pre l : text) (c : nat) : Prop :=
  balance (pre ++ take (S c) l) = 0%Z /\ has_open (pre ++ take (S c) l) = true.

(** In the lines [rest], read after the text [pre], line [k] closes. *)
Definition closes_in (pre : text) (rest : list text) (k : nat) : Prop :=
  exists c, c < length (nth k rest []) /\
            closes_on (pre ++ concat (take k rest)) (nth k rest []) c.

(** Deciders for the two readings, used to evaluate them on given lines. *)
Definition was_positive_b (p : text) : bool :=
  existsb (fun n => (0 <? balance (take n p))%Z) (seq 0 (S (length p))).

Definition returns_to_zero_b (seen : text -> bool) (lines : list text)
    (i j : nat) : bool :=
  existsb (fun c => (balance (scanned lines i j c) =? 0)%Z
                    && seen (scanned lines i j c))
          (seq 0 (length (nth j lines []))).

Definition first_line_b (P : nat -> bool) (i j : nat) : bool :=
  (i <=? j) && P j && forallb (fun k => negb (P k)) (seq i (j - i)).

Definition spec_end_b (lines : list text) (i j : nat) : bool :=
  first_line_b (returns_to_zero_b was_positive_b lines i) i j.

End Extent.
Import Extent FunctionStripper.

(** ** The tests of the stages, named

    The loops of [main] write their tests in line; they are named here so
    that statements about the stages can refer to them. *)

Module Tests.

(** Step 1 removes the line: either of its two tests holds. *)
Definition is_import (l : text) : bool :=
  (contains (txt "createDraft") l && contains (txt "drafts-gmail") l)
  || (contains (txt "sanitizeHumanizedEmail") l
      && contains (txt "email-sanitizer") l).


(** The two fragments of step 7. *)
Definition blanked_fragment : text := txt "const leadGrade = result.emailQA".
Definition old_fragment : text := txt "`lead-${leadGrade}`".
Definition new_fragment : text := txt "`grade-${websiteGrade}`".

(** The element step 7 leaves in place of the blanked line. *)
Definition is_blank (l : text) : bool :=
  match l with
  | [] => true
  | _ :: _ => false
  end.

(** The two tests of step 9. *)
Definition is_start9 (l : text) : bool :=
  contains (txt "Step 10: Generate email") l.

Definition is_stop9 (l : text) : bool :=
  contains (txt "// Add result") l || contains (txt "const result = {") l.


End Tests.
Import Tests.

(** * Properties *)

(** ** Text *)

Section TextFacts.

Lemma starts_with_app (p s : text) : starts_with p (p ++ s) = true.
Proof.
  induction p as [|a p IH]; simpl; [reflexivity|].
  rewrite Ascii.eqb_refl. exact IH.
Qed.

Lemma starts_with_inv (p s : text) :
  starts_with p s = true -> s = p ++ drop (length p) s.
Proof.
  revert s. induction p as [|a p IH]; intros [|b s]; simpl; try easy.
  intros H. apply andb_true_iff in H as [Hab Hps].
  apply Ascii.eqb_eq in Hab. subst b. f_equal. apply IH, Hps.
Qed.

Lemma starts_with_weaken (p s r : text) :
  starts_with p s = true -> starts_with p (s ++ r) = true.
Proof.
  intros H. rewrite (starts_with_inv _ _ H), <- app_assoc.
  apply starts_with_app.
Qed.

Lemma contains_app_r (m a b : text) :
  contains m b = true -> contains m (a ++ b) = true.
Proof.
  intros H. induction a as [|c a IH]; simpl; [exact H|].
  rewrite IH. apply orb_true_r.
Qed.

Lemma contains_app_l (m a b : text) :
  contains m a = true -> contains m (a ++ b) = true.
Proof.
  induction a as [|c a IH]; simpl.
  - destruct m; simpl; [|discriminate]. intros _. destruct b; reflexivity.
  - intros H. apply orb_true_iff in H as [H|H].
    + change (starts_with m (c :: a ++ b)) with (starts_with m ((c :: a) ++ b)).
      rewrite (starts_with_weaken _ _ _ H). reflexivity.
    + rewrite (IH H). apply orb_true_r.
Qed.

Lemma contains_middle (m a b : text) : contains m (a ++ m ++ b) = true.
Proof.
  apply contains_app_r. destruct m as [|c m]; [destruct b; reflexivity|].
  cbn [contains app].
  change (c :: m ++ b) with ((c :: m) ++ b).
  rewrite starts_with_app. reflexivity.
Qed.

End TextFacts.

(** ** The brace scan *)

Section Scan.

Lemma balance_app (a b : text) :
  balance (a ++ b) = (balance a + balance b)%Z.
Proof. induction a as [|c a IH]; simpl; [reflexivity|]. rewrite IH. lia. Qed.

Lemma has_open_app (a b : text) :
  has_open (a ++ b) = has_open a || has_open b.
Proof. unfold has_open. apply existsb_app. Qed.

Lemma scan_chars_spec (l pre : text) :
  match scan_chars (balance pre) (has_open pre) l with
  | Closed => exists c, c < length l /\ closes_on pre l c
  | Open bc st =>
      bc = balance (pre ++ l) /\ st = has_open (pre ++ l) /\
      forall c, c < length l -> ~ closes_on pre l c
  end.
Proof.
  revert pre. induction l as [|ch l IH]; intros pre.
  - simpl. rewrite app_nil_r. repeat split. intros c Hc. simpl in Hc. lia.
  - cbn [scan_chars].
    set (upd := if Ascii.eqb ch "{" then _ else _).
    assert (Hupd : upd = (balance (pre ++ [ch]), has_open (pre ++ [ch]))).
    { subst upd. rewrite balance_app, has_open_app.
      change (has_open [ch]) with (Ascii.eqb "{" ch || false).
      cbn [balance]. rewrite (Ascii.eqb_sym "{" ch).
      destruct (Ascii.eqb ch "{"), (Ascii.eqb ch "}"); f_equal; try lia;
        rewrite ?orb_true_r, ?orb_false_r; reflexivity. }
    rewrite Hupd.
    assert (Hhead : forall c, closes_on pre (ch :: l) (S c)
                              <-> closes_on (pre ++ [ch]) l c).
    { intros c. unfold closes_on. cbn [take]. rewrite <- !app_assoc.
      reflexivity. }
    destruct (has_open (pre ++ [ch]) && (balance (pre ++ [ch]) =? 0)%Z) eqn:E.
    + apply andb_true_iff in E as [E1 E2]. apply Z.eqb_eq in E2.
      exists 0. split; [simpl; lia|]. unfold closes_on.
      change (take 1 (ch :: l)) with [ch]. easy.
    + specialize (IH (pre ++ [ch])).
      destruct (scan_chars _ _ l) as [|bc st].
      * destruct IH as (c & Hc & Hcl). exists (S c). split; [simpl; lia|].
        apply Hhead, Hcl.
      * destruct IH as (-> & -> & Hno). rewrite <- !app_assoc.
        repeat split. intros [|c] Hc.
        -- unfold closes_on. change (take 1 (ch :: l)) with [ch].
           intros [H1 H2]. rewrite H2 in E. apply Z.eqb_eq in H1. rewrite H1 in E.
           discriminate.
        -- intros H. apply Hhead in H. apply (Hno c); [simpl in Hc; lia|easy].
Qed.

Lemma closes_in_cons (pre l : text) (rest : list text) (k : nat) :
  closes_in pre (l :: rest) (S k) <-> closes_in (pre ++ l) rest k.
Proof.
  unfold closes_in. cbn [nth take concat]. rewrite <- app_assoc.
  reflexivity.
Qed.

Lemma closes_in_head (pre l : text) (rest : list text) :
  closes_in pre (l :: rest) 0 <-> exists c, c < length l /\ closes_on pre l c.
Proof.
  unfold closes_in. cbn [nth take concat]. rewrite app_nil_r. reflexivity.
Qed.

Lemma scan_lines_spec (su : Z) (rest : list text) (pre : text) (j : nat) :
  match scan_lines su (balance pre) (has_open pre) j rest with
  | Some r =>
      exists k, r = j + k /\ k < length rest /\ closes_in pre rest k /\
                forall k', k' < k -> ~ closes_in pre rest k'
  | None => (su <= 0)%Z -> forall k, ~ closes_in pre rest k
  end.
Proof.
  revert pre j. induction rest as [|l rest IH]; intros pre j.
  - simpl. intros _ k (c & Hc & _). destruct k; simpl in Hc; lia.
  - cbn [scan_lines]. pose proof (scan_chars_spec l pre) as Hl.
    destruct (scan_chars _ _ l) as [|bc st].
    + exists 0. rewrite Nat.add_0_r. repeat split; [simpl; lia| |lia].
      apply closes_in_head, Hl.
    + destruct Hl as (-> & -> & Hno).
      destruct (0 <? su)%Z eqn:Hsu; [intros H; apply Z.ltb_lt in Hsu; lia|].
      specialize (IH (pre ++ l) (S j)).
      destruct (scan_lines _ _ _ _ rest) as [r|].
      * destruct IH as (k & -> & Hk & Hcl & Hfirst).
        exists (S k). repeat split; [lia|simpl; lia|by apply closes_in_cons|].
        intros [|k'] Hk' H.
        -- apply closes_in_head in H as (c & Hc & H). exact (Hno c Hc H).
        -- apply closes_in_cons in H. apply (Hfirst k'); [lia|exact H].
      * intros Hle [|k] H.
        -- apply closes_in_head in H as (c & Hc & H). exact (Hno c Hc H).
        -- apply closes_in_cons in H. exact (IH Hle k H).
Qed.

(** With an extent already removed in the same stage the scan reads the
    declaration line only. *)
Lemma scan_lines_stale (su : Z) (rest : list text) (bc : Z) (st : bool)
    (j r : nat) :
  (0 < su)%Z -> scan_lines su bc st j rest = Some r -> r = j.
Proof.
  intros Hsu. destruct rest as [|l rest]; simpl; [discriminate|].
  destruct (scan_chars bc st l); [congruence|].
  apply Z.ltb_lt in Hsu. rewrite Hsu. discriminate.
Qed.

Lemma returns_to_zero_drop (lines : list text) (i k : nat) :
  returns_to_zero (fun p => has_open p = true) lines i (i + k)
  <-> closes_in [] (drop i lines) k.
Proof.
  unfold returns_to_zero, closes_in, closes_on, scanned.
  replace (i + k - i) with k by lia.
  rewrite nth_skipn. reflexivity.
Qed.

Lemma find_end_spec (su : Z) (lines : list text) (i : nat) :
  match find_end su lines i with
  | Some j => j < length lines /\ scan_end lines i j
  | None => (su <= 0)%Z -> forall j, ~ scan_end lines i j
  end.
Proof.
  unfold find_end, scan_end, first_line.
  generalize (scan_lines_spec su (drop i lines) [] i).
  change (balance []) with 0%Z. change (has_open []) with false.
  destruct (scan_lines su 0 false i (drop i lines)) as [j|]; intros H.
  - destruct H as (k & -> & Hk & Hcl & Hfirst).
    rewrite length_drop in Hk. split; [lia|].
    split; [lia|]. split; [by apply returns_to_zero_drop|].
    intros k' Hk' H. replace k' with (i + (k' - i)) in H by lia.
    apply returns_to_zero_drop in H. apply (Hfirst (k' - i)); [lia|exact H].
  - intros Hle j (Hij & Hj & _).
    replace j with (i + (j - i)) in Hj by lia.
    apply returns_to_zero_drop in Hj. exact (H Hle _ Hj).
Qed.

Lemma first_line_unique (P : nat -> Prop) (i j j' : nat) :
  first_line P i j -> first_line P i j' -> j = j'.
Proof.
  intros (Hij & Hj & Hfirst) (Hij' & Hj' & Hfirst').
  destruct (Nat.lt_trichotomy j j') as [Hlt|[Heq|Hgt]]; [|exact Heq|].
  - exfalso. apply (Hfirst' j); [lia|exact Hj].
  - exfalso. apply (Hfirst j'); [lia|exact Hj'].
Qed.

End Scan.

(** ** The two readings of the end of an extent, decided *)

Section Deciders.

Lemma was_positive_b_spec (p : text) :
  was_positive_b p = true <-> was_positive p.
Proof.
  unfold was_positive_b, was_positive. rewrite existsb_exists. split.
  - intros (n & _ & Hn). exists (take n p). split; [apply prefix_take|].
    by apply Z.ltb_lt.
  - intros (q & [k ->] & Hq). exists (length q). split.
    + apply in_seq. rewrite length_app. lia.
    + rewrite take_app_length. by apply Z.ltb_lt.
Qed.

Lemma returns_to_zero_b_spec (seen : text -> Prop) (seenb : text -> bool)
    (lines : list text) (i j : nat) :
  (forall p, seenb p = true <-> seen p) ->
  returns_to_zero_b seenb lines i j = true <-> returns_to_zero seen lines i j.
Proof.
  intros Hseen. unfold returns_to_zero_b, returns_to_zero.
  rewrite existsb_exists. split.
  - intros (c & Hc & H). apply in_seq in Hc.
    apply andb_true_iff in H as [H1 H2]. exists c.
    repeat split; [lia|by apply Z.eqb_eq|by apply Hseen].
  - intros (c & Hc & H1 & H2). exists c. split; [apply in_seq; lia|].
    apply andb_true_iff. split; [by apply Z.eqb_eq|by apply Hseen].
Qed.

Lemma first_line_b_spec (P : nat -> Prop) (Pb : nat -> bool) (i j : nat) :
  (forall k, Pb k = true <-> P k) ->
  first_line_b Pb i j = true <-> first_line P i j.
Proof.
  intros HP. unfold first_line_b, first_line.
  rewrite !andb_true_iff, forallb_forall, Nat.leb_le, HP. split.
  - intros [[Hij Hj] Hfirst]. repeat split; [exact Hij|exact Hj|].
    intros k Hk Hpk. apply HP in Hpk.
    specialize (Hfirst k). rewrite Hpk in Hfirst.
    assert (In k (seq i (j - i))) as Hin by (apply in_seq; lia).
    specialize (Hfirst Hin). discriminate.
  - intros (Hij & Hj & Hfirst). repeat split; [exact Hij|exact Hj|].
    intros k Hk. apply in_seq in Hk. apply negb_true_iff.
    destruct (Pb k) eqn:E; [|reflexivity].
    exfalso. apply (Hfirst k); [lia|by apply HP].
Qed.

Lemma spec_end_b_spec (lines : list text) (i j : nat) :
  spec_end_b lines i j = true <-> spec_end lines i j.
Proof.
  apply first_line_b_spec. intros k.
  apply returns_to_zero_b_spec, was_positive_b_spec.
Qed.

End Deciders.

(** ** The end of an extent *)

(** C1, amended.  The line on which the brace scan ends is the first line
    at or after the declaration line on which the balance, counted
    character by character from the declaration line, is zero after an
    opening brace has been read; the scan finds that line whenever it
    exists and no extent was removed earlier in the same stage
    ([skip_until] still not positive). *)
Theorem find_end_first_return (su : Z) (lines : list text) (i j : nat) :
  (find_end su lines i = Some j -> j < length lines /\ scan_end lines i j) /\
  ((su <= 0)%Z -> scan_end lines i j -> find_end su lines i = Some j).
Proof.
  pose proof (find_end_spec su lines i) as H. split.
  - intros E. rewrite E in H. exact H.
  - intros Hsu Hend. destruct (find_end su lines i) as [j'|].
    + destruct H as [_ H]. f_equal. exact (first_line_unique _ _ _ _ H Hend).
    + exfalso. exact (H Hsu j Hend).
Qed.

Lemma find_end_first_return_witness :
  let lines := [ln "function generateEmail(a) {"; ln "  return a;"; ln "}";
                ln "x"] in
  find_end (-1) lines 0 = Some 2 /\ 2 < length lines /\ scan_end lines 0 2.
Proof.
  cbv zeta. split; [reflexivity|].
  apply (proj1 (find_end_first_return (-1) _ 0 2)). reflexivity.
Defined.

(** C1 as the specification words it fails when a closing brace comes
    before the first opening one: the scan stops on the declaration line,
    where the balance is zero without ever having been positive, while the
    first line on which it returns to zero after having been positive is
    the fourth. *)
Lemma find_end_not_after_positive :
  let lines := [ln "} function extractContactInfo(html) {";
                ln "  if (html) {"; ln "    return html;"; ln "  }";
                ln "}"] in
  contains (txt "function extractContactInfo") (nth 0 lines []) = true /\
  find_end (-1) lines 0 = Some 0 /\
  ~ spec_end lines 0 0 /\ spec_end lines 0 3.
Proof.
  cbv zeta. split; [reflexivity|]. split; [reflexivity|]. split.
  - intros H. apply spec_end_b_spec in H. vm_compute in H. discriminate.
  - apply spec_end_b_spec. vm_compute. reflexivity.
Qed.

(** ** A named-function-removal stage *)

Section StageFacts.

Variable needle : text.
Variable func_name : text.
Variable is_comment : text -> bool.

Local Abbreviation loop := (stage_loop needle func_name is_comment).

Lemma stage_loop_app (lines a b : list text) (i : nat) (st : loop_state) :
  loop lines i (a ++ b) st = loop lines (i + length a) b (loop lines i a st).
Proof.
  revert i st. induction a as [|l a IH]; intros i st; simpl.
  - rewrite Nat.add_0_r. reflexivity.
  - cbn [stage_loop]. rewrite IH. f_equal. lia.
Qed.

(** Lines without the declaration, read when nothing is being skipped, are
    appended. *)
Lemma stage_loop_plain (lines seg : list text) (i : nat) (acc : list text)
    (su : Z) (rm : list removed_record) :
  (su <= Z.of_nat i)%Z ->
  Forall (fun l => contains needle l = false) seg ->
  loop lines i seg (LoopState acc su rm) = LoopState (acc ++ seg) su rm.
Proof.
  intros Hsu Hseg. revert i acc Hsu.
  induction Hseg as [|l seg Hl _ IH]; intros i acc Hsu.
  - simpl. rewrite app_nil_r. reflexivity.
  - cbn [stage_loop]. unfold stage_body. cbn [skip_until].
    replace (Z.of_nat i <? su)%Z with false by (symmetry; apply Z.ltb_ge; lia).
    rewrite andb_false_r, Hl. cbn [new_lines removed_lines].
    rewrite IH by lia. rewrite <- app_assoc. reflexivity.
Qed.

(** Lines below [skip_until] are passed over. *)
Lemma stage_loop_skipped (lines seg : list text) (i : nat) (acc : list text)
    (su : Z) (rm : list removed_record) :
  (Z.of_nat (i + length seg) <= su)%Z ->
  loop lines i seg (LoopState acc su rm) = LoopState acc su rm.
Proof.
  revert i. induction seg as [|l seg IH]; intros i Hsu; [reflexivity|].
  cbn [stage_loop]. unfold stage_body. cbn [skip_until].
  simpl in Hsu.
  replace (0 <? su)%Z with true by (symmetry; apply Z.ltb_lt; lia).
  replace (Z.of_nat i <? su)%Z with true by (symmetry; apply Z.ltb_lt; lia).
  cbn [andb]. apply IH. lia.
Qed.

(** What the stage does to a file with one declaration whose extent
    closes: the lines from the declaration line [i] to the closing line [j]
    go, the lines before [i] stay, comment block included, and the audit
    record counts from the line [walk_back] reaches. *)
Lemma remove_function_one_extent (lines : list text) (i j : nat) (l : text)
    (rm : list removed_record) :
  lines !! i = Some l ->
  contains needle l = true ->
  Forall (fun l => contains needle l = false) (take i lines) ->
  Forall (fun l => contains needle l = false) (drop (S j) lines) ->
  scan_end lines i j ->
  remove_function needle func_name is_comment lines rm =
  (take i lines ++ drop (S j) lines,
   rm ++ [(walk_back is_comment lines i + 1,
           description func_name j (walk_back is_comment lines i))]).
Proof.
  intros Hi Hl Hbefore Hafter Hend.
  assert (Hfind : find_end (-1) lines i = Some j)
    by (apply find_end_first_return; [lia|exact Hend]).
  assert (Hj : j < length lines)
    by (apply (find_end_first_return (-1) lines i j), Hfind).
  assert (Hij : i <= j) by apply Hend.
  assert (Hlen : i < length lines) by (eapply lookup_lt_Some, Hi).
  unfold remove_function.
  assert (Hsplit : lines = take i lines ++ l :: take (j - i) (drop (S i) lines)
                                 ++ drop (S j) lines).
  { rewrite <- (take_drop i lines) at 1. f_equal.
    rewrite (drop_S _ _ _ Hi). f_equal.
    rewrite <- (take_drop (j - i) (drop (S i) lines)) at 1. f_equal.
    rewrite drop_drop. f_equal. lia. }
  enough (Hst : stage_loop needle func_name is_comment lines 0
                  (take i lines ++ l :: take (j - i) (drop (S i) lines)
                            ++ drop (S j) lines)
                  (LoopState [] (-1) rm) =
                LoopState (take i lines ++ drop (S j) lines) (Z.of_nat j + 1)
                  (rm ++ [(walk_back is_comment lines i + 1,
                           description func_name j
                             (walk_back is_comment lines i))])).
  { rewrite <- Hsplit in Hst. rewrite Hst. reflexivity. }
  rewrite stage_loop_app, (stage_loop_plain _ _ 0) by (lia || assumption).
  rewrite length_take_le by lia. cbn [app Nat.add stage_loop].
  unfold stage_body at 1. cbn [skip_until new_lines removed_lines].
  change (0 <? -1)%Z with false. cbn [andb]. rewrite Hl, Hfind.
  rewrite stage_loop_app, stage_loop_skipped.
  2:{ rewrite length_take_le by (rewrite length_drop; lia). lia. }
  rewrite stage_loop_plain; [reflexivity| |exact Hafter].
  rewrite length_take_le by (rewrite length_drop; lia). lia.
Qed.

(** What the stage does when no declaration line has a closing line: each
    declaration line goes and nothing else, and nothing is recorded. *)
Lemma remove_function_unclosed (lines : list text)
    (rm : list removed_record) :
  (forall i l, lines !! i = Some l -> contains needle l = true ->
               forall j, ~ scan_end lines i j) ->
  remove_function needle func_name is_comment lines rm =
  (List.filter (fun l => negb (contains needle l)) lines, rm).
Proof.
  intros Hopen. unfold remove_function.
  enough (H : forall rest pre acc, lines = pre ++ rest ->
            loop lines (length pre) rest (LoopState acc (-1) rm) =
            LoopState (acc ++ List.filter (fun l => negb (contains needle l)) rest)
                      (-1) rm).
  { specialize (H lines [] [] eq_refl). cbn [length app] in H.
    rewrite H. reflexivity. }
  induction rest as [|l rest IH]; intros pre acc Hsplit.
  - simpl. rewrite app_nil_r. reflexivity.
  - cbn [stage_loop].
    assert (Hi : lines !! length pre = Some l)
      by (rewrite Hsplit; apply list_lookup_middle; reflexivity).
    assert (Hnext : lines = (pre ++ [l]) ++ rest)
      by (rewrite <- app_assoc; exact Hsplit).
    specialize (IH (pre ++ [l])). rewrite length_app in IH. simpl in IH.
    replace (S (length pre)) with (length pre + 1) by lia.
    unfold stage_body. cbn [skip_until new_lines removed_lines andb].
    change (0 <? -1)%Z with false. cbn [andb List.filter].
    destruct (contains needle l) eqn:Hl; cbn [negb].
    + pose proof (find_end_spec (-1) lines (length pre)) as Hspec.
      destruct (find_end (-1) lines (length pre)) as [j|].
      * exfalso. exact (Hopen _ _ Hi Hl j (proj2 Hspec)).
      * apply IH, Hnext.
    + rewrite IH by exact Hnext. rewrite <- app_assoc. reflexivity.
Qed.

End StageFacts.

Lemma find_end_none (su : Z) (lines : list text) (i : nat) :
  (su <= 0)%Z -> find_end su lines i = None -> forall j, ~ scan_end lines i j.
Proof.
  intros Hsu E. pose proof (find_end_spec su lines i) as H.
  rewrite E in H. exact (H Hsu).
Qed.

(** C2: the code at the failing input.  The declaration is on the fourth
    line under a three-line comment block and the extent closes on the
    sixth.  [walk_back] reaches the first line and the audit record reports
    six lines from line 1, but the three comment lines were appended to
    [new_lines] before the declaration was met: they stay, and the file
    loses three lines, not six. *)
Theorem step2_keeps_comment_block :
  let lines := [ln "/**"; ln " * Extract contact info"; ln " */";
                ln "function extractContactInfo(html) {";
                ln "  return html;"; ln "}"; ln "const x = 1;"] in
  find_end (-1) lines 3 = Some 5 /\
  walk_back is_comment2 lines 3 = 0 /\
  step2 lines [] =
    ([ln "/**"; ln " * Extract contact info"; ln " */"; ln "const x = 1;"],
     [(1, txt "extractContactInfo function (6 lines)")]) /\
  length (fst (step2 lines [])) = length lines - (5 - 3 + 1) /\
  length (fst (step2 lines [])) <> length lines - (5 - 0 + 1).
Proof.
  cbv zeta. repeat split; try reflexivity. vm_compute. discriminate.
Qed.

(** C3, amended.  When no line holding the declaration has a line on which
    the balance is zero after an opening brace was read, the stage records
    nothing in the audit list and deletes no extent: its output is the
    input without the declaration lines themselves, every other line kept
    in order. *)
Theorem unclosed_declaration_only_line_dropped
    (needle func_name : text) (is_comment : text -> bool)
    (lines : list text) (rm : list removed_record) :
  (forall i l, lines !! i = Some l -> contains needle l = true ->
               forall j, ~ scan_end lines i j) ->
  remove_function needle func_name is_comment lines rm =
  (List.filter (fun l => negb (contains needle l)) lines, rm).
Proof. apply remove_function_unclosed. Qed.

Lemma unclosed_declaration_only_line_dropped_witness :
  let lines := [ln "const a = 1;"; ln "function extractContactInfo(html) {";
                ln "  return html;"] in
  (forall i l, lines !! i = Some l ->
               contains (txt "function extractContactInfo") l = true ->
               forall j, ~ scan_end lines i j) /\
  step2 lines [] = ([ln "const a = 1;"; ln "  return html;"], []).
Proof.
  cbv zeta.
  assert (H : forall i l,
             [ln "const a = 1;"; ln "function extractContactInfo(html) {";
              ln "  return html;"] !! i = Some l ->
             contains (txt "function extractContactInfo") l = true ->
             forall j, ~ scan_end
                         [ln "const a = 1;";
                          ln "function extractContactInfo(html) {";
                          ln "  return html;"] i j).
  { intros [|[|[|i]]] l Hl Hc; simpl in Hl; try discriminate;
      injection Hl as <-; try (vm_compute in Hc; discriminate).
    apply (find_end_none (-1)); [lia|reflexivity]. }
  split; [exact H|].
  unfold step2.
  rewrite (unclosed_declaration_only_line_dropped _ _ _ _ _ H).
  reflexivity.
Defined.

(** C3 as the specification words it fails: the scan of a declaration
    whose braces never balance reaches the end of the file and records
    nothing, but the declaration line itself is not appended, so the stage
    does change the line sequence. *)
Lemma unclosed_declaration_changes_lines :
  let lines := [ln "function extractContactInfo(html) {";
                ln "  return html;"] in
  contains (txt "function extractContactInfo") (nth 0 lines []) = true /\
  (forall j, ~ returns_to_zero was_positive lines 0 j) /\
  find_end (-1) lines 0 = None /\
  step2 lines [] = ([ln "  return html;"], []) /\
  fst (step2 lines []) <> lines.
Proof.
  cbv zeta. split; [reflexivity|]. split.
  - intros j H.
    apply (returns_to_zero_b_spec _ _ _ _ _ was_positive_b_spec) in H.
    destruct j as [|[|[|j]]]; vm_compute in H; discriminate.
  - split; [reflexivity|]. split; [reflexivity|]. vm_compute. discriminate.
Qed.

(** ** Region removal (step 8) *)

Section Region.

Lemma step8_loop_outside (a b : list text) :
  Forall (fun l => is_start8 l = false) a ->
  step8_loop false (a ++ b) = a ++ step8_loop false b.
Proof.
  induction 1 as [|l a Hl _ IH]; [reflexivity|].
  cbn [app step8_loop]. rewrite Hl, IH. cbn [negb].
  destruct (is_end8 l); reflexivity.
Qed.

Lemma step8_loop_inside (a b : list text) :
  Forall (fun l => is_end8 l = false) a ->
  step8_loop true (a ++ b) = step8_loop true b.
Proof.
  induction 1 as [|l a Hl _ IH]; [reflexivity|].
  cbn [app step8_loop]. rewrite Hl.
  destruct (is_start8 l); cbn [negb]; exact IH.
Qed.

Lemma step8_loop_enter (sk : bool) (s : text) (rest : list text) :
  is_start8 s = true -> is_end8 s = false ->
  step8_loop sk (s :: rest) = step8_loop true rest.
Proof. intros Hs He. cbn [step8_loop]. rewrite Hs, He. reflexivity. Qed.


End Region.




(** C9, amended.  When a line matches a start marker and not an end
    marker, and no later line matches an end marker, nothing from that
    line to the end of the file is kept: the output is that of the lines
    before it. *)
Theorem step8_unterminated (pre post : list text) (s : text) :
  is_start8 s = true -> is_end8 s = false ->
  Forall (fun l => is_end8 l = false) post ->
  step8 (pre ++ s :: post) = step8 pre.
Proof.
  intros Hs Hse Hpost. unfold step8. generalize false.
  induction pre as [|l pre IH]; intros sk.
  - cbn [app]. rewrite step8_loop_enter by assumption.
    rewrite <- (app_nil_r post), step8_loop_inside by exact Hpost.
    destruct sk; reflexivity.
  - cbn [app step8_loop]. rewrite !IH. reflexivity.
Qed.

Lemma step8_unterminated_witness :
  step8 [ln "const a = 1;"; ln "// 3b. Save critique reasoning";
         ln "fs.writeFileSync(critiquePath, critique);"; ln "}"]
  = [ln "const a = 1;"].
Proof.
  transitivity (step8 [ln "const a = 1;"]); [|reflexivity].
  apply (step8_unterminated [ln "const a = 1;"]
           [ln "fs.writeFileSync(critiquePath, critique);"; ln "}"]
           (ln "// 3b. Save critique reasoning"));
    [reflexivity|reflexivity|repeat constructor].
Defined.

(** C9 as stated fails on the same kind of line: a line that matches a
    start marker and an end marker leaves the flag cleared, and the lines
    after it are kept although no later line matches an end marker. *)
Lemma step8_unterminated_start_with_end :
  let s := ln "// 3c. Save QA review // 3. Save client info" in
  let lines := [s; ln "fs.writeFileSync(qaPath, qa);"; ln "}"] in
  is_start8 s = true /\
  Forall (fun l => is_end8 l = false) (drop 1 lines) /\
  step8 lines = lines.
Proof. cbv zeta. repeat split; repeat constructor. Qed.

(** ** Field-line removal (step 10) *)

Section FieldLines.

Lemma step10_filter (lines : list text) :
  step10 lines = List.filter (fun l => negb (drops10 l)) lines.
Proof.
  induction lines as [|l lines IH]; [reflexivity|].
  cbn [step10 List.filter]. rewrite IH. destruct (drops10 l); reflexivity.
Qed.

Lemma skip_spaces_app (ws r : text) :
  forallb is_space ws = true -> skip_spaces (ws ++ r) = skip_spaces r.
Proof.
  induction ws as [|c ws IH]; [reflexivity|]. cbn [forallb app skip_spaces].
  intros H. apply andb_true_iff in H as [Hc Hws]. rewrite Hc. exact (IH Hws).
Qed.

(** The leading white space of a text and what follows it. *)
Lemma skip_spaces_split (s : text) :
  exists ws, forallb is_space ws = true /\ s = ws ++ skip_spaces s.
Proof.
  induction s as [|c s (ws & Hws & IH)]; [exists []; easy|].
  cbn [skip_spaces]. destruct (is_space c) eqn:Hc.
  - exists (c :: ws). cbn [forallb app]. rewrite Hc, Hws, <- IH. easy.
  - exists []. easy.
Qed.

Lemma re_match_field_iff (word : string) (l : text) :
  match txt word with
  | c :: _ => is_space c = false
  | [] => False
  end ->
  re_match_field word l = true <->
  exists ws rest, forallb is_space ws = true /\ l = ws ++ txt word ++ rest.
Proof.
  intros Hhead. unfold re_match_field. split.
  - intros H. destruct (skip_spaces_split l) as (ws & Hws & Hl).
    exists ws, (drop (length (txt word)) (skip_spaces l)).
    split; [exact Hws|]. rewrite <- (starts_with_inv _ _ H). exact Hl.
  - intros (ws & rest & Hws & ->). rewrite skip_spaces_app by exact Hws.
    destruct (txt word) as [|c w]; [contradiction|].
    cbn [app skip_spaces]. rewrite Hhead.
    change (c :: w ++ rest) with ((c :: w) ++ rest). apply starts_with_app.
Qed.

End FieldLines.

(** C8, amended.  The last stage drops a line exactly when one of its ten
    tests holds.  The email test holds exactly when the line begins with
    white space, possibly none, followed by [email: email,]: it is anchored
    at the start of the line only, so whatever follows the comma does not
    prevent the drop. *)
Theorem step10_email_shape (lines : list text) (l : text) :
  step10 lines = List.filter (fun l => negb (drops10 l)) lines /\
  (re_match_field "email: email," l = true <->
   exists ws rest, forallb is_space ws = true /\
                   l = ws ++ txt "email: email," ++ rest) /\
  (re_match_field "email: email," l = true -> ~ In l (step10 lines)).
Proof.
  split; [apply step10_filter|]. split.
  - apply re_match_field_iff. reflexivity.
  - intros H Hin. rewrite step10_filter in Hin.
    apply List.filter_In in Hin as [_ Hkept].
    unfold drops10 in Hkept. rewrite H in Hkept. discriminate.
Qed.

Lemma step10_email_shape_witness :
  let l := ln "    email: email," in
  re_match_field "email: email," l = true /\
  ~ In l (step10 [ln "const result = {"; l; ln "};"]).
Proof.
  cbv zeta. split; [reflexivity|].
  apply (step10_email_shape _ _). reflexivity.
Defined.

(** C8 as stated fails on a line with more fields after the email one: it
    is not [email: email,] up to surrounding white space, none of the nine
    other tests holds on it, and it is dropped by the email test. *)
Lemma step10_drops_line_with_more_content :
  let l := ln "  email: email, company: company," in
  (~ exists ws ws', forallb is_space ws = true /\
                    forallb is_space ws' = true /\
                    l = ws ++ txt "email: email," ++ ws') /\
  re_match_field "email: email," l = true /\
  re_match_field "emailQA:" l = false /\
  re_match_field "draft:" l = false /\
  contains (txt "critiqueReasoning:") l = false /\
  contains (txt "leadGrade: leadGrade,") l = false /\
  contains (txt "extractContactInfo(") l = false /\
  re_match_field "emailWriting:" l = false /\
  re_match_field "qaReview:" l = false /\
  re_match_field "cheapModel:" l = false /\
  step10 [l] = [].
Proof.
  cbv zeta. split; [|repeat split; reflexivity].
  intros (ws & ws' & Hws & Hws' & Hl).
  apply (f_equal skip_spaces) in Hl.
  rewrite skip_spaces_app in Hl by exact Hws.
  vm_compute in Hl. injection Hl as <-. vm_compute in Hws'. discriminate.
Qed.

(** ** The targeted rename (step 7) and the final count *)

Section Rename.

Lemma step7_lookup (lines : list text) (i : nat) :
  step7 lines !! i = step7_line <$> lines !! i.
Proof.
  revert i. induction lines as [|l lines IH]; intros [|i]; try reflexivity.
  apply IH.
Qed.

Lemma main_counts (lines : list text) :
  original_count (main lines) = length lines /\
  final_count (main lines) = length (fst (strip lines)) /\
  written (main lines) = concat (fst (strip lines)).
Proof. unfold main. destruct (strip lines). repeat split. Qed.

End Rename.

(** ** Field-Injector: the substitution *)

Import FieldInjector.

Section SubFacts.

Variable pattern : text -> option (nat * nat).
Variable ins : text.

Lemma sub_from_skip (a b : text) :
  sub_from pattern ins (length a) (a ++ b) = sub_from pattern ins 0 b.
Proof.
  induction a as [|c a IH]; [reflexivity|]. exact IH.
Qed.

(** A substitution pass either leaves the text as it is or puts the
    inserted text in it, and with it every text the inserted text holds. *)
Lemma sub_from_changed (m : text) (k : nat) (s : text) :
  contains m ins = true ->
  sub_from pattern ins k s = drop k s \/
  contains m (sub_from pattern ins k s) = true.
Proof.
  intros Hm. revert k. induction s as [|c s IH]; intros k.
  - left. destruct k; reflexivity.
  - destruct k as [|k]; cbn [sub_from].
    + destruct (pattern (c :: s)) as [[n1 n2]|].
      * right. apply contains_app_r, contains_app_l, Hm.
      * destruct (IH 0) as [E|E].
        -- left. rewrite E. reflexivity.
        -- right. apply (contains_app_r m [c]), E.
    + destruct (IH k) as [E|E]; [left|right]; exact E.
Qed.

Lemma sub_changed (m s : text) :
  contains m ins = true ->
  sub pattern ins s = s \/ contains m (sub pattern ins s) = true.
Proof. intros Hm. exact (sub_from_changed m 0 s Hm). Qed.

(** At a match the scan puts the inserted text between the two groups and
    goes on after the match. *)
Lemma sub_match (blk rest : text) (n1 n2 : nat) :
  pattern (blk ++ rest) = Some (n1, n2) ->
  0 < n2 -> n1 + n2 = length blk ->
  sub pattern ins (blk ++ rest)
  = take n1 blk ++ ins ++ drop n1 blk ++ sub pattern ins rest.
Proof.
  intros Hm Hn2 Hlen. unfold sub.
  destruct blk as [|c b]; [simpl in Hlen; lia|].
  change ((c :: b) ++ rest) with (c :: (b ++ rest)) in *.
  cbn [sub_from]. rewrite Hm.
  change (c :: (b ++ rest)) with ((c :: b) ++ rest).
  rewrite take_app_le by lia.
  rewrite drop_app_le by lia.
  rewrite take_app_length' by (rewrite length_drop; lia).
  replace (n1 + n2 - 1) with (length b) by (simpl in Hlen; lia).
  rewrite sub_from_skip. reflexivity.
Qed.

(** A match never reaches past the end of the text, and a text that goes
    on with the letter [p] is matched as if it ended there: under these two
    conditions the scan of a text cut before a [p] is the scan of its two
    parts. *)
Hypothesis pattern_bound :
  forall s n1 n2, pattern s = Some (n1, n2) -> n1 + n2 <= length s.
Hypothesis pattern_tail :
  forall c s t, pattern ((c :: s) ++ "p"%char :: t) = pattern (c :: s).

Lemma sub_from_app (pre t : text) (k : nat) :
  k <= length pre ->
  sub_from pattern ins k (pre ++ "p"%char :: t)
  = sub_from pattern ins k pre ++ sub_from pattern ins 0 ("p"%char :: t).
Proof.
  revert k. induction pre as [|c pre IH]; intros k Hk.
  - simpl in Hk. replace k with 0 by lia. reflexivity.
  - destruct k as [|k].
    + change ((c :: pre) ++ "p"%char :: t) with (c :: (pre ++ "p"%char :: t)).
      cbn [sub_from].
      change (c :: (pre ++ "p"%char :: t)) with ((c :: pre) ++ "p"%char :: t).
      rewrite pattern_tail.
      destruct (pattern (c :: pre)) as [[n1 n2]|] eqn:E.
      * apply pattern_bound in E. simpl in E.
        rewrite IH by lia.
        rewrite take_app_le by (simpl; lia).
        rewrite drop_app_le by (simpl; lia).
        rewrite take_app_le by (rewrite length_drop; simpl; lia).
        rewrite <- !app_assoc. reflexivity.
      * rewrite IH by lia. reflexivity.
    + cbn [app sub_from]. apply IH. simpl in Hk. lia.
Qed.

Lemma sub_app (pre t : text) :
  sub pattern ins (pre ++ "p"%char :: t)
  = sub pattern ins pre ++ sub pattern ins ("p"%char :: t).
Proof. unfold sub. apply sub_from_app. lia. Qed.

End SubFacts.

(** ** Field-Injector: the pattern of pass A *)

Section PriorityPattern.

(** What a matcher leaves is never longer than what it was given. *)
Lemma lit_length (p s r : text) : lit p s = Some r -> length r <= length s.
Proof.
  unfold lit. destruct (starts_with p s); [|discriminate].
  intros [= <-]. rewrite length_drop. lia.
Qed.

Lemma skip_spaces_length (s : text) : length (skip_spaces s) <= length s.
Proof.
  induction s as [|c s IH]; [reflexivity|]. cbn [skip_spaces].
  destruct (is_space c); simpl; lia.
Qed.

Lemma one_length (cls : ascii -> bool) (s r : text) :
  one cls s = Some r -> length r < length s.
Proof.
  destruct s as [|c s]; [discriminate|]. simpl.
  destruct (cls c); [|discriminate]. intros [= <-]. lia.
Qed.

Lemma alt_length (ps : list text) (s r : text) :
  alt ps s = Some r -> length r <= length s.
Proof.
  induction ps as [|p ps IH]; [discriminate|]. cbn [alt].
  destruct (lit p s) as [r'|] eqn:E; [|exact IH].
  intros [= <-]. exact (lit_length _ _ _ E).
Qed.

Lemma closing_length (s r : text) : closing s = Some r -> length r < length s.
Proof.
  unfold closing. intros H. apply one_length in H.
  pose proof (skip_spaces_length s). lia.
Qed.

Lemma match_priority_bound (s : text) (n1 n2 : nat) :
  match_priority s = Some (n1, n2) -> n1 + n2 <= length s.
Proof.
  unfold match_priority.
  destruct (lit (txt "priority:") s) as [s1|] eqn:E1; [|discriminate].
  cbn [mbind option_bind].
  destruct (one is_quote (skip_spaces s1)) as [s2|] eqn:E2; [|discriminate].
  cbn [mbind option_bind].
  destruct (alt _ s2) as [s3|] eqn:E3; [|discriminate].
  cbn [mbind option_bind].
  destruct (one is_quote s3) as [g2|] eqn:E4; [|discriminate].
  cbn [mbind option_bind].
  destruct (closing g2) as [r|] eqn:E5; [|discriminate].
  cbn [mbind option_bind]. unfold groups. intros [= <- <-].
  apply lit_length in E1. apply one_length in E2, E4.
  apply alt_length in E3. apply closing_length in E5.
  pose proof (skip_spaces_length s1). lia.
Qed.

(** Texts without the letter [p]. *)
Let no_p (w : text) : bool := forallb (fun a => negb (Ascii.eqb a "p")) w.

Variable t : text.
Local Abbreviation tl := ("p"%char :: t).

Lemma starts_with_tail (w s : text) :
  no_p w = true -> starts_with w (s ++ tl) = starts_with w s.
Proof.
  revert s. induction w as [|a w IH]; intros s Hw; [reflexivity|].
  cbn [no_p forallb] in Hw. apply andb_true_iff in Hw as [Ha Hw].
  destruct s as [|c s]; cbn [app starts_with].
  - apply negb_true_iff in Ha. rewrite Ha. reflexivity.
  - rewrite (IH s Hw). reflexivity.
Qed.

Lemma drop_tail (w s : text) :
  starts_with w s = true ->
  drop (length w) (s ++ tl) = drop (length w) s ++ tl.
Proof.
  intros H. apply drop_app_le.
  rewrite (starts_with_inv _ _ H), length_app. lia.
Qed.

Lemma lit_tail (w s : text) :
  no_p w = true -> lit w (s ++ tl) = (fun r => r ++ tl) <$> lit w s.
Proof.
  intros Hw. unfold lit. rewrite (starts_with_tail _ _ Hw).
  destruct (starts_with w s) eqn:E; [|reflexivity].
  cbn [fmap option_fmap option_map]. f_equal. exact (drop_tail _ _ E).
Qed.

(** A literal that begins with [p], on a text that is not empty. *)
Lemma lit_tail_cons (a : ascii) (w : text) (c : ascii) (s : text) :
  no_p w = true ->
  lit (a :: w) ((c :: s) ++ tl) = (fun r => r ++ tl) <$> lit (a :: w) (c :: s).
Proof.
  intros Hw. unfold lit. cbn [app starts_with].
  rewrite (starts_with_tail _ _ Hw).
  destruct (Ascii.eqb a c && starts_with w s) eqn:E; [|reflexivity].
  cbn [fmap option_fmap option_map]. f_equal.
  apply andb_true_iff in E as [_ E]. exact (drop_tail _ _ E).
Qed.

Lemma skip_spaces_tail (s : text) : skip_spaces (s ++ tl) = skip_spaces s ++ tl.
Proof.
  induction s as [|c s IH]; [reflexivity|]. cbn [app skip_spaces].
  destruct (is_space c); [exact IH|reflexivity].
Qed.

Lemma one_tail (cls : ascii -> bool) (s : text) :
  cls "p"%char = false ->
  one cls (s ++ tl) = (fun r => r ++ tl) <$> one cls s.
Proof.
  intros Hp. destruct s as [|c s]; cbn [app one].
  - rewrite Hp. reflexivity.
  - destruct (cls c); reflexivity.
Qed.

Lemma alt_tail (ps : list text) (s : text) :
  forallb no_p ps = true ->
  alt ps (s ++ tl) = (fun r => r ++ tl) <$> alt ps s.
Proof.
  induction ps as [|w ps IH]; [reflexivity|]. cbn [forallb alt].
  intros H. apply andb_true_iff in H as [Hw Hps].
  rewrite (lit_tail _ _ Hw). destruct (lit w s); [reflexivity|exact (IH Hps)].
Qed.

Lemma closing_tail (s : text) :
  closing (s ++ tl) = (fun r => r ++ tl) <$> closing s.
Proof.
  unfold closing. rewrite skip_spaces_tail. apply one_tail. reflexivity.
Qed.

Lemma groups_tail (s g2 r : text) :
  length g2 <= length s -> length r <= length g2 ->
  groups (s ++ tl) (g2 ++ tl) (r ++ tl) = groups s g2 r.
Proof. intros H1 H2. unfold groups. rewrite !length_app. f_equal; lia. Qed.

Lemma match_priority_tail (c : ascii) (s : text) :
  match_priority ((c :: s) ++ tl) = match_priority (c :: s).
Proof.
  unfold match_priority.
  change (txt "priority:") with ("p"%char :: txt "riority:").
  rewrite lit_tail_cons by reflexivity.
  destruct (lit _ (c :: s)) as [s1|] eqn:E1; [|reflexivity].
  cbn [fmap option_fmap option_map mbind option_bind].
  rewrite skip_spaces_tail, one_tail by reflexivity.
  destruct (one is_quote (skip_spaces s1)) as [s2|] eqn:E2; [|reflexivity].
  cbn [fmap option_fmap option_map mbind option_bind].
  rewrite alt_tail by reflexivity.
  destruct (alt _ s2) as [s3|] eqn:E3; [|reflexivity].
  cbn [fmap option_fmap option_map mbind option_bind].
  rewrite one_tail by reflexivity.
  destruct (one is_quote s3) as [g2|] eqn:E4; [|reflexivity].
  cbn [fmap option_fmap option_map mbind option_bind].
  rewrite closing_tail.
  destruct (closing g2) as [r|] eqn:E5; [|reflexivity].
  cbn [fmap option_fmap option_map mbind option_bind].
  f_equal. change (c :: s ++ tl) with ((c :: s) ++ tl).
  apply lit_length in E1. apply one_length in E2, E4.
  apply alt_length in E3. apply closing_length in E5.
  pose proof (skip_spaces_length s1).
  apply groups_tail; lia.
Qed.

End PriorityPattern.

Section PassA.

Variables source source_type : text.

Lemma match_priority_block (post : text) :
  match_priority ((txt "priority: 'critical'" ++ [nl] ++ txt "}") ++ post)
  = Some (20, 2).
Proof.
  unfold match_priority.
  replace (lit (txt "priority:") _)
    with (Some (txt " 'critical'" ++ [nl] ++ txt "}" ++ post))
    by reflexivity.
  cbn [mbind option_bind].
  replace (one is_quote _)
    with (Some (txt "critical'" ++ [nl] ++ txt "}" ++ post)) by reflexivity.
  cbn [mbind option_bind].
  replace (alt _ _) with (Some (txt "'" ++ [nl] ++ txt "}" ++ post))
    by reflexivity.
  cbn [mbind option_bind].
  replace (one is_quote _) with (Some ([nl] ++ txt "}" ++ post))
    by reflexivity.
  cbn [mbind option_bind].
  replace (closing _) with (Some post) by reflexivity.
  cbn [mbind option_bind]. unfold groups.
  rewrite !length_app. cbn [length txt list_ascii_of_string].
  f_equal. f_equal; lia.
Qed.

Lemma pass_a_block (post : text) :
  pass_a source source_type
    ("p"%char :: (txt "riority: 'critical'" ++ [nl] ++ txt "}") ++ post)
  = txt "priority: 'critical'" ++ inserted source source_type
    ++ ([nl] ++ txt "}") ++ pass_a source source_type post.
Proof.
  unfold pass_a.
  exact (sub_match _ _ (txt "priority: 'critical'" ++ [nl] ++ txt "}") post
           20 2 (match_priority_block post) (Nat.lt_0_succ 1) eq_refl).
Qed.

Lemma pass_a_app (pre t : text) :
  pass_a source source_type (pre ++ "p"%char :: t)
  = pass_a source source_type pre ++ pass_a source source_type ("p"%char :: t).
Proof.
  unfold pass_a.
  apply (sub_app _ _ match_priority_bound
           (fun c s t => match_priority_tail t c s)).
Qed.

End PassA.

(** C7, amended.  Wherever the block [priority: 'critical'], newline,
    closing brace stands in the text, pass A puts after the priority field
    a comma, a line of six spaces and [source: 'X',], and a line of six
    spaces and [source_type: 'Y'], and leaves the newline and the brace
    after them: the new fields come just before the white space that
    precedes the closing brace, with a fixed indentation of six spaces
    whatever the indentation of the block.  The text before the block and
    the text after it are rewritten on their own. *)
Theorem pass_a_critical_block (source source_type pre post : text) :
  pass_a source source_type
    (pre ++ txt "priority: 'critical'" ++ [nl] ++ txt "}" ++ post)
  = pass_a source source_type pre
    ++ txt "priority: 'critical'," ++ [nl]
    ++ txt "      source: '" ++ source ++ txt "'," ++ [nl]
    ++ txt "      source_type: '" ++ source_type ++ txt "'"
    ++ [nl] ++ txt "}" ++ pass_a source source_type post.
Proof.
  replace (txt "priority: 'critical'" ++ [nl] ++ txt "}" ++ post)
    with ("p"%char :: (txt "riority: 'critical'" ++ [nl] ++ txt "}") ++ post)
    by reflexivity.
  rewrite pass_a_app, pass_a_block. unfold inserted.
  rewrite <- !app_assoc. reflexivity.
Qed.

(** C7 as stated fails on the indentation: the two new lines start with six
    spaces, as the replacement template has them, not with two. *)
Lemma pass_a_indents_six_spaces :
  let out := pass_a (txt "X") (txt "Y")
               (txt "priority: 'critical'" ++ [nl] ++ txt "}") in
  out = txt "priority: 'critical'," ++ [nl]
        ++ txt "      source: 'X'," ++ [nl]
        ++ txt "      source_type: 'Y'" ++ [nl] ++ txt "}" /\
  out <> txt "priority: 'critical'," ++ [nl]
         ++ txt "  source: 'X'," ++ [nl]
         ++ txt "  source_type: 'Y'" ++ [nl] ++ txt "}".
Proof. cbv zeta. split; [vm_compute; reflexivity|vm_compute; discriminate]. Qed.

(** ** Field-Injector: one file, then all of them *)

Section Injection.

Lemma marker_in_inserted (source source_type : text) :
  contains (marker source) (inserted source source_type) = true.
Proof.
  replace (inserted source source_type)
    with ((txt "," ++ [nl] ++ txt "      ") ++ marker source
          ++ (txt "," ++ [nl] ++ txt "      source_type: '" ++ source_type
              ++ txt "'")).
  - apply contains_middle.
  - unfold inserted, marker. rewrite <- !app_assoc. reflexivity.
Qed.

(** After the two passes the text is the one read or holds the marker. *)
Lemma passes_changed (source source_type content : text) :
  let updated := pass_b source source_type (pass_a source source_type content)
  in updated = content \/ contains (marker source) updated = true.
Proof.
  cbv zeta. unfold pass_b, pass_a.
  pose proof (marker_in_inserted source source_type) as Hm.
  destruct (sub_changed match_last_field _ (marker source)
              (sub match_priority (inserted source source_type) content) Hm)
    as [Eb|Eb]; [|right; exact Eb].
  rewrite Eb.
  destruct (sub_changed match_priority _ (marker source) content Hm)
    as [Ea|Ea]; [left|right]; exact Ea.
Qed.

Lemma inject_idempotent (source source_type content : text) :
  inject source source_type (inject source source_type content)
  = inject source source_type content.
Proof.
  unfold inject. destruct (contains (marker source) content) eqn:E.
  - rewrite E. reflexivity.
  - destruct (passes_changed source source_type content) as [H|H];
      cbv zeta in H; rewrite H.
    + rewrite E, H. reflexivity.
    + reflexivity.
Qed.

Lemma inject_marked (source source_type content : text) :
  contains (marker source) content = true ->
  inject source source_type content = content.
Proof. intros H. unfold inject. rewrite H. reflexivity. Qed.

Lemma inject_unmarked (source source_type content : text) :
  contains (marker source) content = false ->
  inject source source_type content
  = pass_b source source_type (pass_a source source_type content).
Proof. intros H. unfold inject. rewrite H. reflexivity. Qed.

Lemma process_files (w : world) (spec : string * string * string)
    (q : string) :
  files (process w spec) !! q = inject_at spec q (files w !! q).
Proof.
  destruct spec as [[f s] t]. unfold process, inject_at.
  destruct (files w !! f) as [c|] eqn:Ef.
  - destruct (contains (marker (txt s)) c) eqn:Ec.
    + cbn [print files]. destruct (decide (f = q)) as [<-|]; [|reflexivity].
      rewrite Ef. cbn [fmap option_fmap option_map].
      rewrite (inject_marked _ _ _ Ec). reflexivity.
    + case_bool_decide as Hne; cbn [print files].
      * rewrite lookup_insert. destruct (decide (f = q)) as [<-|];
          [|reflexivity].
        rewrite Ef. cbn [fmap option_fmap option_map].
        rewrite (inject_unmarked _ _ _ Ec). reflexivity.
      * destruct (decide (f = q)) as [<-|]; [|reflexivity].
        rewrite Ef. cbn [fmap option_fmap option_map].
        rewrite (inject_unmarked _ _ _ Ec). f_equal.
        destruct (decide (pass_b (txt s) (txt t) (pass_a (txt s) (txt t) c) = c))
          as [->|Hd]; [reflexivity|contradiction].
  - cbn [print files]. destruct (decide (f = q)) as [<-|]; [|reflexivity].
    rewrite Ef. reflexivity.
Qed.

Lemma fold_process_files (specs : list (string * string * string))
    (w : world) (q : string) :
  files (fold_left process specs w) !! q
  = fold_left (fun o spec => inject_at spec q o) specs (files w !! q).
Proof.
  revert w. induction specs as [|spec specs IH]; intros w; [reflexivity|].
  cbn [fold_left]. rewrite IH, process_files. reflexivity.
Qed.

Lemma fold_inject_at_absent (specs : list (string * string * string))
    (q : string) (o : option text) :
  q ∉ map (fun spec => spec.1.1) specs ->
  fold_left (fun o spec => inject_at spec q o) specs o = o.
Proof.
  revert o. induction specs as [|[[f s] t] specs IH]; intros o Hq;
    [reflexivity|].
  cbn [map fold_left] in *. apply not_elem_of_cons in Hq as [Hne Hq].
  rewrite IH by exact Hq. unfold inject_at.
  destruct (decide (f = q)) as [->|]; [|reflexivity].
  exfalso. apply Hne. reflexivity.
Qed.

Lemma fold_inject_at_in (specs : list (string * string * string))
    (f s t : string) (o : option text) :
  NoDup (map (fun spec => spec.1.1) specs) ->
  (f, s, t) ∈ specs ->
  fold_left (fun o spec => inject_at spec f o) specs o
  = inject (txt s) (txt t) <$> o.
Proof.
  revert o. induction specs as [|[[f' s'] t'] specs IH]; intros o Hnd Hin.
  - by apply elem_of_nil in Hin.
  - cbn [map fold_left] in *. apply NoDup_cons in Hnd as [Hf' Hnd].
    apply elem_of_cons in Hin as [Heq|Hin].
    + injection Heq as <- <- <-. rewrite fold_inject_at_absent by exact Hf'.
      unfold inject_at. rewrite decide_True by reflexivity. reflexivity.
    + rewrite IH by assumption. unfold inject_at.
      destruct (decide (f' = f)) as [->|]; [|reflexivity].
      exfalso. apply Hf'.
      apply (list_elem_of_fmap_2 (fun spec => spec.1.1) _ _ Hin).
Qed.

Lemma analyzers_NoDup : NoDup (map (fun spec => spec.1.1) analyzers).
Proof. apply (bool_decide_unpack _). vm_compute. exact I. Qed.

Lemma run_files (w : world) (q : string) :
  files (run w) !! q
  = fold_left (fun o spec => inject_at spec q o) analyzers (files w !! q).
Proof. unfold run. cbn [print files]. apply fold_process_files. Qed.

End Injection.

(** C5.  Field-Injector is idempotent.  On the text of one file, applying
    the procedure to its own output changes nothing; and for every state of
    the files, a second run over the whole list leaves every file as the
    first run left it, so no field is added twice. *)
Theorem field_injector_idempotent (w : world)
    (source source_type content : text) :
  inject source source_type (inject source source_type content)
  = inject source source_type content /\
  files (run (run w)) = files (run w).
Proof.
  split; [apply inject_idempotent|].
  apply map_eq. intros q. rewrite (run_files (run w)), !run_files.
  destruct (decide (q ∈ map (fun spec => spec.1.1) analyzers)) as [Hq|Hq].
  - apply (list_elem_of_fmap_1 (fun spec => spec.1.1)) in Hq
      as ([[f s] t] & -> & Hin).
    cbn [fst]. rewrite !(fold_inject_at_in _ _ _ _ _ analyzers_NoDup Hin).
    destruct (files w !! f) as [c|]; [|reflexivity].
    cbn. f_equal. apply inject_idempotent.
  - rewrite !fold_inject_at_absent by exact Hq. reflexivity.
Qed.

(** C6.  A file whose text holds the marker of its spec is left as it is:
    [process] prints the skip and touches no file, neither pass having
    been applied; and when the spec is one of [analyzers], the file holds
    the same text after the whole run. *)
Theorem process_skips_marked (w : world)
    (filename source source_type : string) (content : text) :
  files w !! filename = Some content ->
  contains (marker (txt source)) content = true ->
  process w (filename, source, source_type)
  = print w (txt "Skipped " ++ txt filename
             ++ txt " - already has source fields") /\
  files (process w (filename, source, source_type)) = files w /\
  ((filename, source, source_type) ∈ analyzers ->
   files (run w) !! filename = Some content).
Proof.
  intros Hfile Hmark.
  assert (Hp : process w (filename, source, source_type)
               = print w (txt "Skipped " ++ txt filename
                          ++ txt " - already has source fields")).
  { unfold process. rewrite Hfile, Hmark. reflexivity. }
  split; [exact Hp|]. split; [rewrite Hp; reflexivity|].
  intros Hin. rewrite run_files.
  rewrite (fold_inject_at_in _ _ _ _ _ analyzers_NoDup Hin), Hfile.
  cbn. f_equal. apply inject_marked, Hmark.
Qed.

Lemma process_skips_marked_witness :
  let content := txt "issues.push({ priority: 'high', source: 'seo-analyzer' });" in
  let w := World {[ "analyzers/seo-analyzer.js"%string := content ]} [] in
  files (process w ("analyzers/seo-analyzer.js", "seo-analyzer",
                    "technical")%string) = files w /\
  files (run w) !! "analyzers/seo-analyzer.js"%string = Some content.
Proof.
  cbv zeta.
  destruct (process_skips_marked
              (World {[ "analyzers/seo-analyzer.js"%string :=
                        txt "issues.push({ priority: 'high', source: 'seo-analyzer' });" ]} [])
              "analyzers/seo-analyzer.js" "seo-analyzer" "technical"
              (txt "issues.push({ priority: 'high', source: 'seo-analyzer' });"))
    as (_ & Hfiles & Hrun).
  - apply lookup_singleton_eq.
  - reflexivity.
  - split; [exact Hfiles|]. apply Hrun. apply elem_of_cons. left. reflexivity.
Defined.

(** * Further properties of Function-Stripper *)

(** ** Import removal (step 1) *)

Section Imports.

Lemma step1_loop_spec (rest pre : list text) (rm : list removed_record) :
  let out := step1_loop (length pre) rest rm in
  fst out = List.filter (fun l => negb (is_import l)) rest /\
  exists added,
    snd out = rm ++ added /\
    length added + length (fst out) = length rest /\
    Forall (fun rec => exists l, (pre ++ rest) !! (fst rec - 1) = Some l /\
                                 1 <= fst rec /\ is_import l = true) added.
Proof.
  cbv zeta. revert pre rm. induction rest as [|l rest IH]; intros pre rm.
  - split; [reflexivity|]. exists []. rewrite app_nil_r. repeat split.
    constructor.
  - assert (Hl : (pre ++ l :: rest) !! (length pre + 1 - 1) = Some l).
    { replace (length pre + 1 - 1) with (length pre) by lia.
      apply list_lookup_middle. reflexivity. }
    specialize (IH (pre ++ [l])). rewrite <- app_assoc in IH.
    rewrite length_app in IH. cbn [length app] in IH.
    replace (length pre + 1) with (S (length pre)) in IH by lia.
    cbn [step1_loop List.filter]. unfold is_import at 1.
    destruct (contains (txt "createDraft") l
              && contains (txt "drafts-gmail") l) eqn:E1.
    + cbn [orb negb].
      destruct (IH (rm ++ [(length pre + 1, txt "createDraft import")]))
        as (Hf & added & Hs & Hlen & Hall).
      split; [exact Hf|].
      exists ((length pre + 1, txt "createDraft import") :: added).
      rewrite Hs, <- app_assoc. split; [reflexivity|].
      split; [cbn [length]; lia|]. constructor; [|exact Hall].
      exists l. cbn [fst]. split; [exact Hl|]. split; [lia|].
      unfold is_import. rewrite E1. reflexivity.
    + cbn [orb].
      destruct (contains (txt "sanitizeHumanizedEmail") l
                && contains (txt "email-sanitizer") l) eqn:E2.
      * cbn [negb].
        destruct (IH (rm ++ [(length pre + 1, txt "email-sanitizer import")]))
          as (Hf & added & Hs & Hlen & Hall).
        split; [exact Hf|].
        exists ((length pre + 1, txt "email-sanitizer import") :: added).
        rewrite Hs, <- app_assoc. split; [reflexivity|].
        split; [cbn [length]; lia|]. constructor; [|exact Hall].
        exists l. cbn [fst]. split; [exact Hl|]. split; [lia|].
        unfold is_import. rewrite E1, E2. reflexivity.
      * cbn [negb]. destruct (IH rm) as (Hf & added & Hs & Hlen & Hall).
        destruct (step1_loop (S (length pre)) rest rm) as [kept rm'].
        cbn [fst snd] in *. split; [f_equal; exact Hf|].
        exists added. split; [exact Hs|]. split; [cbn [length]; lia|exact Hall].
Qed.

End Imports.

(** X1.  Step 1 keeps exactly the lines that are not one of the two
    imports, in order.  It adds one audit record per line removed, after
    the records it was given, and each new record carries the 1-based
    number of an import line of the input. *)
Theorem step1_removes_imports (lines : list text)
    (rm : list removed_record) :
  fst (step1 lines rm) = List.filter (fun l => negb (is_import l)) lines /\
  exists added,
    snd (step1 lines rm) = rm ++ added /\
    length added + length (fst (step1 lines rm)) = length lines /\
    Forall (fun rec => exists l, lines !! (fst rec - 1) = Some l /\
                                 1 <= fst rec /\ is_import l = true) added.
Proof. exact (step1_loop_spec lines [] rm). Qed.

(** ** Named-function removal (steps 2 to 6) *)

Section StageInvariants.

Variable needle : text.
Variable func_name : text.
Variable is_comment : text -> bool.

Local Abbreviation loop := (stage_loop needle func_name is_comment).
Local Abbreviation body := (stage_body needle func_name is_comment).

Lemma stage_body_step (lines : list text) (st : loop_state) (i : nat)
    (l : text) :
  (new_lines (body lines st i l) = new_lines st \/
   new_lines (body lines st i l) = new_lines st ++ [l]) /\
  removed_lines st `prefix_of` removed_lines (body lines st i l).
Proof.
  unfold stage_body.
  destruct ((0 <? skip_until st)%Z && (Z.of_nat i <? skip_until st)%Z);
    [split; [left|]; reflexivity|].
  destruct (contains needle l).
  - destruct (find_end (skip_until st) lines i); cbn [new_lines removed_lines].
    + split; [left; reflexivity|]. apply prefix_app_r. reflexivity.
    + split; [left|]; reflexivity.
  - cbn [new_lines removed_lines]. split; [right|]; reflexivity.
Qed.

Lemma stage_loop_sublist (lines rest : list text) (i : nat)
    (st : loop_state) :
  exists kept,
    new_lines (loop lines i rest st) = new_lines st ++ kept /\
    kept `sublist_of` rest /\
    removed_lines st `prefix_of` removed_lines (loop lines i rest st).
Proof.
  revert i st. induction rest as [|l rest IH]; intros i st.
  - exists []. rewrite app_nil_r. repeat split; reflexivity.
  - cbn [stage_loop].
    destruct (IH (S i) (body lines st i l)) as (kept & Hk & Hsub & Hrm).
    destruct (stage_body_step lines st i l) as [[Hn|Hn] Hp].
    + exists kept. rewrite Hk, Hn. split; [reflexivity|].
      split; [by apply sublist_cons|]. by etransitivity.
    + exists (l :: kept). rewrite Hk, Hn, <- app_assoc.
      split; [reflexivity|]. split; [by apply sublist_skip|].
      by etransitivity.
Qed.

(** With an extent already removed in the stage, a declaration whose own
    line does not close is given no extent. *)
Lemma find_end_stale (su : Z) (lines : list text) (i : nat) (l : text) :
  (0 < su)%Z -> lines !! i = Some l ->
  (forall c, ~ closes_on [] l c) ->
  find_end su lines i = None.
Proof.
  intros Hsu Hl Hopen. unfold find_end. rewrite (drop_S _ _ _ Hl).
  cbn [scan_lines]. generalize (scan_chars_spec l []).
  change (balance []) with 0%Z. change (has_open []) with false.
  destruct (scan_chars 0 false l).
  - intros (c & _ & Hc). exfalso. exact (Hopen c Hc).
  - intros _. apply Z.ltb_lt in Hsu. rewrite Hsu. reflexivity.
Qed.

Lemma walk_back_spec (lines : list text) (s : nat) :
  let w := walk_back is_comment lines s in
  w <= s /\
  (forall k, w <= k < s -> is_comment (nth k lines []) = true) /\
  (w = 0 \/ is_comment (nth (w - 1) lines []) = false).
Proof.
  cbv zeta. induction s as [|p IH]; cbn [walk_back].
  - split; [lia|]. split; [intros k Hk; lia|left; reflexivity].
  - destruct (is_comment (nth p lines [])) eqn:E.
    + destruct IH as (Hle & Hall & Hstop). split; [lia|]. split; [|exact Hstop].
      intros k Hk. destruct (decide (k = p)) as [->|]; [exact E|].
      apply Hall. lia.
    + split; [lia|]. split; [intros k Hk; lia|]. right.
      replace (S p - 1) with p by lia. exact E.
Qed.

End StageInvariants.

Lemma find_end_some (su : Z) (lines : list text) (i j : nat) :
  find_end su lines i = Some j -> scan_end lines i j.
Proof.
  intros E. pose proof (find_end_spec su lines i) as H.
  rewrite E in H. apply H.
Qed.

(** X2.  A stage whose declaration is on no line changes nothing: it
    returns the lines and the audit list it was given. *)
Theorem remove_function_absent (needle func_name : text)
    (is_comment : text -> bool) (lines : list text)
    (rm : list removed_record) :
  Forall (fun l => contains needle l = false) lines ->
  remove_function needle func_name is_comment lines rm = (lines, rm).
Proof.
  intros H. unfold remove_function.
  rewrite (stage_loop_plain needle func_name is_comment lines lines 0 [] (-1)
             rm) by (lia || exact H).
  reflexivity.
Qed.

Lemma remove_function_absent_witness :
  step3 [ln "const a = 1;"; ln "function extractContactInfo(html) {"; ln "}"]
        []
  = ([ln "const a = 1;"; ln "function extractContactInfo(html) {"; ln "}"],
     []).
Proof.
  apply (remove_function_absent _ _ _
           [ln "const a = 1;"; ln "function extractContactInfo(html) {";
            ln "}"]).
  repeat constructor.
Defined.

(** X3.  When the declaration is on one line only, line [i], and its extent
    closes on line [j], the stage returns the lines before [i] followed by
    the lines after [j], and adds one audit record: the number of the line
    the walk back over the comment lines reaches, and the count of lines
    from there to [j]. *)
Theorem remove_function_extent (needle func_name : text)
    (is_comment : text -> bool) (lines : list text) (i j : nat) (l : text)
    (rm : list removed_record) :
  lines !! i = Some l ->
  contains needle l = true ->
  Forall (fun l => contains needle l = false) (take i lines) ->
  Forall (fun l => contains needle l = false) (drop (S j) lines) ->
  scan_end lines i j ->
  remove_function needle func_name is_comment lines rm =
  (take i lines ++ drop (S j) lines,
   rm ++ [(walk_back is_comment lines i + 1,
           description func_name j (walk_back is_comment lines i))]).
Proof. apply remove_function_one_extent. Qed.

Lemma remove_function_extent_witness :
  step_named (txt "qaReviewEmail")
    [ln "const a = 1;"; ln "async function qaReviewEmail(email) {";
     ln "  return { ok: true };"; ln "}"; ln "const b = 2;"] []
  = ([ln "const a = 1;"; ln "const b = 2;"],
     [(2, txt "qaReviewEmail function (3 lines)")]).
Proof.
  unfold step_named.
  etransitivity;
    [apply (remove_function_extent (txt "function " ++ txt "qaReviewEmail")
              (txt "qaReviewEmail") is_comment3
              [ln "const a = 1;"; ln "async function qaReviewEmail(email) {";
               ln "  return { ok: true };"; ln "}"; ln "const b = 2;"]
              1 3 (ln "async function qaReviewEmail(email) {") [])
    |reflexivity].
  - reflexivity.
  - reflexivity.
  - repeat constructor.
  - repeat constructor.
  - apply (find_end_some (-1)). reflexivity.
Defined.

(** X4.  A stage only removes lines: the lines it returns are a
    subsequence of the lines it was given, and the audit list it returns
    starts with the audit list it was given. *)
Theorem remove_function_sublist (needle func_name : text)
    (is_comment : text -> bool) (lines : list text)
    (rm : list removed_record) :
  fst (remove_function needle func_name is_comment lines rm)
    `sublist_of` lines /\
  rm `prefix_of` snd (remove_function needle func_name is_comment lines rm).
Proof.
  unfold remove_function. cbn [fst snd].
  destruct (stage_loop_sublist needle func_name is_comment lines lines 0
              (LoopState [] (-1) rm)) as (kept & Hk & Hsub & Hrm).
  rewrite Hk. split; [exact Hsub|exact Hrm].
Qed.

(** X6.  The walk back from the declaration line stops at or before it,
    passes over comment lines only, and stops at the top of the file or
    under a line that is not a comment line. *)
Theorem walk_back_over_comments (is_comment : text -> bool)
    (lines : list text) (s : nat) :
  walk_back is_comment lines s <= s /\
  (forall k, walk_back is_comment lines s <= k < s ->
             is_comment (nth k lines []) = true) /\
  (walk_back is_comment lines s = 0 \/
   is_comment (nth (walk_back is_comment lines s - 1) lines []) = false).
Proof. exact (walk_back_spec is_comment lines s). Qed.

Lemma walk_back_over_comments_witness :
  let lines := [ln "const a = 1;"; ln "/**"; ln " * Draft the email";
                ln " */"; ln "function generateEmail(x) {"] in
  walk_back is_comment3 lines 4 = 1 /\
  is_comment3 (nth 2 lines []) = true.
Proof.
  cbv zeta. split; [reflexivity|].
  apply (proj1 (proj2 (walk_back_over_comments is_comment3
                         [ln "const a = 1;"; ln "/**";
                          ln " * Draft the email"; ln " */";
                          ln "function generateEmail(x) {"] 4)) 2).
  vm_compute. lia.
Defined.

Section StaleSkip.

Variable needle : text.
Variable func_name : text.
Variable is_comment : text -> bool.

Lemma find_end_complete (su : Z) (lines : list text) (i j : nat) :
  (su <= 0)%Z -> scan_end lines i j -> find_end su lines i = Some j.
Proof.
  intros Hsu Hend. pose proof (find_end_spec su lines i) as H.
  destruct (find_end su lines i) as [j'|].
  - destruct H as [_ H]. f_equal. exact (first_line_unique _ _ _ _ H Hend).
  - exfalso. exact (H Hsu j Hend).
Qed.

(** The state of the loop after a file with two declaration lines, the
    first closing [length B] lines further down, the second not closing on
    its own line. *)
Lemma stage_loop_two_declarations (A B M C : list text) (l1 l2 : text)
    (rm : list removed_record) :
  let lines := A ++ l1 :: B ++ M ++ l2 :: C in
  Forall (fun l => contains needle l = false) A ->
  contains needle l1 = true ->
  scan_end lines (length A) (length A + length B) ->
  Forall (fun l => contains needle l = false) M ->
  contains needle l2 = true ->
  (forall c, ~ closes_on [] l2 c) ->
  Forall (fun l => contains needle l = false) C ->
  stage_loop needle func_name is_comment lines 0 lines (LoopState [] (-1) rm)
  = LoopState (A ++ M ++ C) (Z.of_nat (length A + length B) + 1)
      (rm ++ [(walk_back is_comment lines (length A) + 1,
               description func_name (length A + length B)
                 (walk_back is_comment lines (length A)))]).
Proof.
  intros lines HA Hl1 Hend HM Hl2 Hopen HC.
  assert (Hfind1 : find_end (-1) lines (length A)
                   = Some (length A + length B))
    by (apply find_end_complete; [lia|exact Hend]).
  assert (Hlook2 : lines !! (S (length A) + length B + length M) = Some l2).
  { subst lines.
    replace (A ++ l1 :: B ++ M ++ l2 :: C)
      with ((A ++ l1 :: B ++ M) ++ l2 :: C)
      by (rewrite <- app_assoc; cbn [app]; rewrite <- app_assoc; reflexivity).
    apply list_lookup_middle. rewrite !length_app. cbn [length].
    rewrite length_app. lia. }
  assert (Hfind2 : find_end (Z.of_nat (length A + length B) + 1) lines
                     (S (length A) + length B + length M) = None)
    by (apply (find_end_stale _ _ _ l2); [lia|exact Hlook2|exact Hopen]).
  unfold lines at 2.
  rewrite stage_loop_app, stage_loop_plain by (lia || exact HA).
  cbn [app Nat.add stage_loop].
  unfold stage_body at 1. cbn [skip_until new_lines removed_lines].
  change (0 <? -1)%Z with false. cbn [andb]. rewrite Hl1, Hfind1.
  rewrite stage_loop_app, stage_loop_skipped by lia.
  rewrite stage_loop_app, stage_loop_plain by (lia || exact HM).
  cbn [stage_loop]. unfold stage_body at 1.
  cbn [skip_until new_lines removed_lines].
  replace (Z.of_nat (S (length A) + length B + length M)
           <? Z.of_nat (length A + length B) + 1)%Z
    with false by (symmetry; apply Z.ltb_ge; lia).
  rewrite andb_false_r, Hl2, Hfind2.
  rewrite stage_loop_plain by (lia || exact HC).
  rewrite <- app_assoc. reflexivity.
Qed.

End StaleSkip.

(** X5.  After a first extent has been removed, [skip_until] stays
    positive and the scan of a later declaration reads the declaration
    line only.  When that line does not close its braces, the stage drops
    the declaration line of the second function and nothing else of it:
    the lines after it stay, and nothing more is recorded. *)
Theorem second_declaration_body_kept (needle func_name : text)
    (is_comment : text -> bool) (A B M C : list text) (l1 l2 : text)
    (rm : list removed_record) :
  let lines := A ++ l1 :: B ++ M ++ l2 :: C in
  Forall (fun l => contains needle l = false) A ->
  contains needle l1 = true ->
  scan_end lines (length A) (length A + length B) ->
  Forall (fun l => contains needle l = false) M ->
  contains needle l2 = true ->
  (forall c, ~ closes_on [] l2 c) ->
  Forall (fun l => contains needle l = false) C ->
  remove_function needle func_name is_comment lines rm
  = (A ++ M ++ C,
     rm ++ [(walk_back is_comment lines (length A) + 1,
             description func_name (length A + length B)
               (walk_back is_comment lines (length A)))]).
Proof.
  intros lines HA Hl1 Hend HM Hl2 Hopen HC. unfold remove_function.
  pose proof (stage_loop_two_declarations needle func_name is_comment
                A B M C l1 l2 rm HA Hl1 Hend HM Hl2 Hopen HC) as H.
  cbv zeta in H. subst lines. rewrite H. reflexivity.
Qed.

Lemma second_declaration_body_kept_witness :
  step2 [ln "function extractContactInfo(a) {"; ln "  return a;"; ln "}";
         ln "const x = 1;";
         ln "function extractContactInfo(b) {"; ln "  return b;"; ln "}"] []
  = ([ln "const x = 1;"; ln "  return b;"; ln "}"],
     [(1, txt "extractContactInfo function (3 lines)")]).
Proof.
  unfold step2.
  etransitivity;
    [apply (second_declaration_body_kept
              (txt "function extractContactInfo") (txt "extractContactInfo")
              is_comment2 [] [ln "  return a;"; ln "}"] [ln "const x = 1;"]
              [ln "  return b;"; ln "}"]
              (ln "function extractContactInfo(a) {")
              (ln "function extractContactInfo(b) {") [])
    |reflexivity].
  - constructor.
  - reflexivity.
  - apply (find_end_some (-1)). reflexivity.
  - repeat constructor.
  - reflexivity.
  - intros c H.
    pose proof (scan_chars_spec (ln "function extractContactInfo(b) {") [])
      as Hs.
    vm_compute scan_chars in Hs. destruct Hs as (_ & _ & Hno).
    destruct (Nat.lt_ge_cases c
                (length (ln "function extractContactInfo(b) {")))
      as [Hc|Hc]; [exact (Hno c Hc H)|].
    destruct H as [H _]. rewrite take_ge in H by lia.
    vm_compute in H. discriminate.
  - repeat constructor.
Defined.

(** ** The targeted rename (step 7) *)

Section Replace.

Variable new : text.

Lemma replace_from_skip (old a b : text) :
  replace_from old new (length a) (a ++ b) = replace_from old new 0 b.
Proof. induction a as [|c a IH]; [reflexivity|exact IH]. Qed.

Lemma replace_head (h : ascii) (o b : text) :
  replace (h :: o) new ((h :: o) ++ b) = new ++ replace (h :: o) new b.
Proof.
  unfold replace.
  change ((h :: o) ++ b) with (h :: (o ++ b)). cbn [replace_from].
  change (h :: (o ++ b)) with ((h :: o) ++ b).
  rewrite starts_with_app. f_equal.
  replace (length (h :: o) - 1) with (length o) by (simpl; lia).
  apply replace_from_skip.
Qed.

(** No occurrence starts in a text without the first character of the
    text replaced. *)
Lemma replace_pass (h : ascii) (o a r : text) :
  forallb (fun c => negb (Ascii.eqb h c)) a = true ->
  replace (h :: o) new (a ++ r) = a ++ replace (h :: o) new r.
Proof.
  intros Ha. unfold replace. induction a as [|c a IH]; [reflexivity|].
  cbn [forallb] in Ha. apply andb_true_iff in Ha as [Hc Ha].
  cbn [app replace_from starts_with]. apply negb_true_iff in Hc.
  rewrite Hc. cbn [andb]. f_equal. exact (IH Ha).
Qed.

Lemma replace_absent (old s : text) :
  contains old s = false -> replace old new s = s.
Proof.
  unfold replace. induction s as [|c s IH]; [reflexivity|].
  cbn [contains]. intros H. apply orb_false_iff in H as [Hh Ht].
  cbn [replace_from]. rewrite Hh. f_equal. exact (IH Ht).
Qed.

End Replace.

(** X7.  Step 7 on a line that holds the template fragment
    [`lead-${leadGrade}`] after a text without backtick, and that is not
    the blanked line: the fragment becomes [`grade-${websiteGrade}`], the
    text before it stays, and the text after it is rewritten the same way,
    so every occurrence is renamed.  A text in which the fragment does not
    occur is left as it is by the replacement. *)
Theorem step7_renames_fragment (a b : text) :
  forallb (fun c => negb (Ascii.eqb "`" c)) a = true ->
  contains blanked_fragment (a ++ old_fragment ++ b) = false ->
  step7_line (a ++ old_fragment ++ b)
  = a ++ new_fragment ++ replace old_fragment new_fragment b /\
  (contains old_fragment b = false ->
   step7_line (a ++ old_fragment ++ b) = a ++ new_fragment ++ b).
Proof.
  intros Ha Hblank.
  assert (H : step7_line (a ++ old_fragment ++ b)
              = a ++ new_fragment ++ replace old_fragment new_fragment b).
  { unfold step7_line.
    change (txt "const leadGrade = result.emailQA") with blanked_fragment.
    change (txt "`lead-${leadGrade}`") with old_fragment.
    change (txt "`grade-${websiteGrade}`") with new_fragment.
    rewrite Hblank, contains_middle.
    change old_fragment with ("`"%char :: txt "lead-${leadGrade}`").
    rewrite (replace_pass new_fragment "`" (txt "lead-${leadGrade}`") a _ Ha).
    rewrite replace_head. reflexivity. }
  split; [exact H|].
  intros Hb. rewrite H, (replace_absent _ _ _ Hb). reflexivity.
Qed.

Lemma step7_renames_fragment_witness :
  step7_line (ln "  const dir = path.join(base, `lead-${leadGrade}`, name);")
  = ln "  const dir = path.join(base, `grade-${websiteGrade}`, name);".
Proof.
  apply (proj2 (step7_renames_fragment
                  (txt "  const dir = path.join(base, ") (ln ", name);")
                  eq_refl eq_refl)).
  reflexivity.
Defined.

(** ** The two region stages (steps 8 and 9) *)

Section Regions.

Lemma step8_loop_sublist (sk : bool) (lines : list text) :
  step8_loop sk lines `sublist_of` lines.
Proof.
  revert sk. induction lines as [|l lines IH]; intros sk; [reflexivity|].
  cbn [step8_loop]. destruct (is_end8 l); [apply sublist_skip, IH|].
  destruct (negb (if is_start8 l then true else sk));
    [apply sublist_skip|apply sublist_cons]; apply IH.
Qed.

(** A line kept by step 8 opens no region when read again. *)
Lemma step8_loop_kept (sk : bool) (lines : list text) :
  Forall (fun l => is_start8 l = true -> is_end8 l = true)
         (step8_loop sk lines).
Proof.
  revert sk. induction lines as [|l lines IH]; intros sk; [constructor|].
  cbn [step8_loop]. destruct (is_end8 l) eqn:He.
  - constructor; [intros _; exact He|apply IH].
  - destruct (is_start8 l) eqn:Hs; cbn [negb]; [apply IH|].
    destruct sk; cbn [negb]; [apply IH|].
    constructor; [rewrite Hs; discriminate|apply IH].
Qed.

Lemma step8_loop_fixed (lines : list text) :
  Forall (fun l => is_start8 l = true -> is_end8 l = true) lines ->
  step8_loop false lines = lines.
Proof.
  induction 1 as [|l lines Hl _ IH]; [reflexivity|].
  cbn [step8_loop]. destruct (is_end8 l) eqn:He; [rewrite IH; reflexivity|].
  destruct (is_start8 l) eqn:Hs; [specialize (Hl eq_refl); discriminate|].
  cbn [negb]. rewrite IH. reflexivity.
Qed.

(** Step 9, in the same terms. *)
Lemma step9_loop_unfold (sk : bool) (l : text) (rest : list text) :
  step9_loop sk (l :: rest)
  = let sk1 := if is_start9 l then true else sk in
    let sk2 := if sk1 && is_stop9 l then false else sk1 in
    if negb sk2 then l :: step9_loop sk2 rest else step9_loop sk2 rest.
Proof. reflexivity. Qed.

Lemma step9_loop_outside (a b : list text) :
  Forall (fun l => is_start9 l = false) a ->
  step9_loop false (a ++ b) = a ++ step9_loop false b.
Proof.
  induction 1 as [|l a Hl _ IH]; [reflexivity|].
  cbn [app]. rewrite step9_loop_unfold, Hl. cbv zeta. cbn [andb negb].
  rewrite IH. reflexivity.
Qed.

Lemma step9_loop_inside (a b : list text) :
  Forall (fun l => is_stop9 l = false) a ->
  step9_loop true (a ++ b) = step9_loop true b.
Proof.
  induction 1 as [|l a Hl _ IH]; [reflexivity|].
  cbn [app]. rewrite step9_loop_unfold, Hl. cbv zeta.
  destruct (is_start9 l); cbn [andb negb]; exact IH.
Qed.

Lemma step9_loop_sublist (sk : bool) (lines : list text) :
  step9_loop sk lines `sublist_of` lines.
Proof.
  revert sk. induction lines as [|l lines IH]; intros sk; [reflexivity|].
  rewrite step9_loop_unfold. cbv zeta.
  destruct (negb _); [apply sublist_skip|apply sublist_cons]; apply IH.
Qed.

Lemma step9_loop_kept (sk : bool) (lines : list text) :
  Forall (fun l => is_start9 l = true -> is_stop9 l = true)
         (step9_loop sk lines).
Proof.
  revert sk. induction lines as [|l lines IH]; intros sk; [constructor|].
  rewrite step9_loop_unfold. cbv zeta.
  destruct (is_start9 l) eqn:Hs, (is_stop9 l) eqn:Ht, sk;
    cbn [andb negb]; try apply IH;
    (constructor;
     [rewrite Hs, Ht; first [intros _; reflexivity|intros; discriminate]
     |apply IH]).
Qed.

Lemma step9_loop_fixed (lines : list text) :
  Forall (fun l => is_start9 l = true -> is_stop9 l = true) lines ->
  step9_loop false lines = lines.
Proof.
  induction 1 as [|l lines Hl _ IH]; [reflexivity|].
  rewrite step9_loop_unfold. cbv zeta.
  destruct (is_start9 l) eqn:Hs.
  - rewrite (Hl eq_refl). cbn [andb negb]. rewrite IH. reflexivity.
  - cbn [andb negb]. rewrite IH. reflexivity.
Qed.

Lemma step10_sublist (lines : list text) : step10 lines `sublist_of` lines.
Proof.
  induction lines as [|l lines IH]; [reflexivity|]. cbn [step10].
  destruct (drops10 l); [apply sublist_cons|apply sublist_skip]; exact IH.
Qed.

End Regions.



(** X9.  In step 9, when no line after a starting line holds [// Add
    result] or [const result = {], nothing from the starting line to the
    end of the file is kept. *)
Theorem step9_unterminated (pre post : list text) (s : text) :
  is_start9 s = true -> is_stop9 s = false ->
  Forall (fun l => is_stop9 l = false) post ->
  step9 (pre ++ s :: post) = step9 pre.
Proof.
  intros Hs Hst Hpost. unfold step9. generalize false.
  induction pre as [|l pre IH]; intros sk.
  - cbn [app]. rewrite step9_loop_unfold, Hs, Hst. cbv zeta.
    cbn [andb negb].
    rewrite <- (app_nil_r post), step9_loop_inside by exact Hpost.
    reflexivity.
  - cbn [app]. rewrite !step9_loop_unfold. cbv zeta. rewrite !IH.
    reflexivity.
Qed.

Lemma step9_unterminated_witness :
  step9 [ln "  const grade = 1;"; ln "  // Step 10: Generate email";
         ln "  const email = await generateEmail(data);"; ln "}"]
  = [ln "  const grade = 1;"].
Proof.
  transitivity (step9 [ln "  const grade = 1;"]); [|reflexivity].
  apply (step9_unterminated [ln "  const grade = 1;"]
           [ln "  const email = await generateEmail(data);"; ln "}"]
           (ln "  // Step 10: Generate email"));
    [reflexivity|reflexivity|repeat constructor].
Defined.

(** X10.  Steps 8, 9 and 10 are idempotent: run on its own output, each
    of them removes nothing more. *)
Theorem region_stages_idempotent (lines : list text) :
  step8 (step8 lines) = step8 lines /\
  step9 (step9 lines) = step9 lines /\
  step10 (step10 lines) = step10 lines.
Proof.
  split; [apply step8_loop_fixed, step8_loop_kept|].
  split; [apply step9_loop_fixed, step9_loop_kept|].
  induction lines as [|l lines IH]; [reflexivity|]. cbn [step10].
  destruct (drops10 l) eqn:E; [exact IH|].
  cbn [step10]. rewrite E, IH. reflexivity.
Qed.

(** ** The whole of [main] *)

Section Whole.

Lemma step1_length (lines : list text) (rm : list removed_record) :
  length (fst (step1 lines rm)) <= length lines.
Proof.
  destruct (step1_loop_spec lines [] rm) as (_ & added & _ & Hlen & _).
  unfold step1. cbn [length app] in Hlen. lia.
Qed.

Lemma remove_function_length (needle func_name : text)
    (is_comment : text -> bool) (lines : list text)
    (rm : list removed_record) :
  length (fst (remove_function needle func_name is_comment lines rm))
  <= length lines.
Proof.
  unfold remove_function. cbn [fst].
  destruct (stage_loop_sublist needle func_name is_comment lines lines 0
              (LoopState [] (-1) rm)) as (kept & Hk & Hsub & _).
  rewrite Hk. cbn [new_lines app]. exact (sublist_length _ _ Hsub).
Qed.

Lemma steps4to6_length (lines : list text) (rm : list removed_record) :
  length (fst (steps4to6 lines rm)) <= length lines.
Proof.
  unfold steps4to6, func_names. cbn [fold_left]. unfold step_named.
  pose proof (remove_function_length
                (txt "function " ++ txt "generateCritiqueReasoning")
                (txt "generateCritiqueReasoning") is_comment3 lines rm) as H1.
  destruct (remove_function _ _ _ lines rm) as [l1 r1]. cbn [fst] in H1.
  pose proof (remove_function_length
                (txt "function " ++ txt "qaReviewEmail")
                (txt "qaReviewEmail") is_comment3 l1 r1) as H2.
  destruct (remove_function _ _ _ l1 r1) as [l2 r2]. cbn [fst] in H2.
  pose proof (remove_function_length
                (txt "function " ++ txt "generateEmail")
                (txt "generateEmail") is_comment3 l2 r2) as H3.
  lia.
Qed.

Lemma strip_length (lines : list text) :
  length (fst (strip lines)) <= length lines.
Proof.
  unfold strip.
  pose proof (step1_length lines []) as H1.
  destruct (step1 lines []) as [l1 r1]. cbn [fst] in H1.
  pose proof (remove_function_length (txt "function extractContactInfo")
                (txt "extractContactInfo") is_comment2 l1 r1) as H2.
  fold step2 in H2. destruct (step2 l1 r1) as [l2 r2]. cbn [fst] in H2.
  pose proof (remove_function_length
                (txt "async function humanizeEmailWithAI")
                (txt "humanizeEmailWithAI") is_comment3 l2 r2) as H3.
  fold step3 in H3. destruct (step3 l2 r2) as [l3 r3]. cbn [fst] in H3.
  pose proof (steps4to6_length l3 r3) as H4.
  destruct (steps4to6 l3 r3) as [l4 r4]. cbn [fst] in *.
  pose proof (sublist_length _ _ (step10_sublist (step9 (step8 (step7 l4)))))
    as H10.
  pose proof (sublist_length _ _ (step9_loop_sublist false (step8 (step7 l4))))
    as H9.
  pose proof (sublist_length _ _ (step8_loop_sublist false (step7 l4))) as H8.
  assert (H7 : length (step7 l4) = length l4) by apply length_map.
  unfold step8, step9 in *. lia.
Qed.

End Whole.

(** X11.  [main] never adds a line: the final count it prints is at most
    the original count.  On a file that is not empty the number of removed
    lines it reports is their difference, which is not negative.  On an
    empty file the division of the summary raises [ZeroDivisionError]
    after the file is written and the two counts are printed, and no
    number of removed lines is reported. *)
Theorem main_never_grows (lines : list text) :
  final_count (main lines) <= original_count (main lines) /\
  (lines <> [] ->
   exists removed rm,
     summary (main lines) = Some (removed, rm) /\
     removed = (Z.of_nat (original_count (main lines))
                - Z.of_nat (final_count (main lines)))%Z /\
     (0 <= removed)%Z) /\
  (lines = [] -> main lines = Report [] 0 0 None).
Proof.
  pose proof (strip_length lines) as H. split; [|split].
  - unfold main. destruct (strip lines) as [final rm]. cbn [fst] in H.
    cbn [final_count original_count]. exact H.
  - intros Hne. unfold main. destruct (strip lines) as [final rm].
    cbn [fst] in H. cbn [final_count original_count summary].
    destruct lines as [|l lines]; [congruence|]. cbn [length Nat.eqb] in *.
    eexists _, rm. split; [reflexivity|]. split; [reflexivity|lia].
  - intros ->. reflexivity.
Qed.

Lemma main_never_grows_witness :
  let lines := [ln "const a = 1;"; ln "  email: email,"] in
  lines <> [] /\
  exists removed rm, summary (main lines) = Some (removed, rm) /\
                     (0 <= removed)%Z.
Proof.
  cbv zeta. split; [discriminate|].
  destruct (proj1 (proj2 (main_never_grows
                            [ln "const a = 1;"; ln "  email: email,"])))
    as (removed & rm & Hs & _ & Hpos); [discriminate|].
  exists removed, rm. split; [exact Hs|exact Hpos].
Defined.

Section Quiet.






Lemma step8_plain (lines : list text) :
  Forall (fun l => is_start8 l = false) lines -> step8 lines = lines.
Proof.
  intros H. unfold step8. rewrite <- (app_nil_r lines) at 1.
  rewrite step8_loop_outside by exact H. apply app_nil_r.
Qed.

Lemma step9_plain (lines : list text) :
  Forall (fun l => is_start9 l = false) lines -> step9 lines = lines.
Proof.
  intros H. unfold step9. rewrite <- (app_nil_r lines) at 1.
  rewrite step9_loop_outside by exact H. apply app_nil_r.
Qed.


End Quiet.



(** ** Blanked lines and the final count *)

Section Blanks.

Lemma filter_blank_length (ls : list text) :
  length ls = length (List.filter is_blank ls)
              + length (List.filter (fun l => negb (is_blank l)) ls).
Proof.
  induction ls as [|l ls IH]; [reflexivity|]. cbn [List.filter].
  destruct (is_blank l); cbn [negb length]; lia.
Qed.

Lemma concat_not_blank (ls : list text) :
  concat ls = concat (List.filter (fun l => negb (is_blank l)) ls).
Proof.
  induction ls as [|l ls IH]; [reflexivity|]. cbn [List.filter].
  destruct l as [|c l]; cbn [is_blank negb concat app]; [exact IH|].
  rewrite IH. reflexivity.
Qed.

Lemma step10_blank (ls : list text) :
  List.filter is_blank (step10 ls) = List.filter is_blank ls.
Proof.
  induction ls as [|l ls IH]; [reflexivity|]. cbn [step10].
  destruct l as [|c l].
  - change (drops10 []) with false. cbn [List.filter is_blank].
    rewrite IH. reflexivity.
  - destruct (drops10 (c :: l)); cbn [List.filter is_blank]; exact IH.
Qed.

End Blanks.

(** C10, amended.  Step 7 keeps the length of the line sequence: the line
    holding [const leadGrade = result.emailQA] becomes the empty string at
    the same position.  Steps 8 and 9 drop such an element when they meet
    it inside a skipped region and keep it otherwise, and step 10 always
    keeps it; where no line starts a region all of them are kept.  The
    final count is the number of elements left, empty ones included, and
    the file written is the concatenation of those that are not empty: an
    empty element that was kept is counted as a line and puts nothing in
    the file. *)
Theorem blanked_line_counted_when_kept (lines : list text) :
  length (step7 lines) = length lines /\
  (forall i l, lines !! i = Some l ->
     contains (txt "const leadGrade = result.emailQA") l = true ->
     step7 lines !! i = Some []) /\
  (forall sk rest,
     step8_loop sk ([] :: rest)
     = (if sk then step8_loop true rest else [] :: step8_loop false rest) /\
     step9_loop sk ([] :: rest)
     = (if sk then step9_loop true rest else [] :: step9_loop false rest) /\
     step10 ([] :: rest) = [] :: step10 rest) /\
  (forall ls,
     Forall (fun l => is_start8 l = false /\ is_start9 l = false) ls ->
     List.filter is_blank (step10 (step9 (step8 ls)))
     = List.filter is_blank ls) /\
  final_count (main lines)
  = length (List.filter is_blank (fst (strip lines)))
    + length (List.filter (fun l => negb (is_blank l)) (fst (strip lines))) /\
  written (main lines)
  = concat (List.filter (fun l => negb (is_blank l)) (fst (strip lines))).
Proof.
  split; [apply length_map|]. split.
  { intros i l Hi Hl. rewrite step7_lookup, Hi.
    cbn [fmap option_fmap option_map]. unfold step7_line. rewrite Hl.
    reflexivity. }
  split; [intros [|] rest; repeat split|]. split.
  { intros ls Hls. rewrite step10_blank.
    rewrite step8_plain by (apply (Forall_impl _ _ _ Hls); intros l Hl; apply Hl).
    rewrite step9_plain by (apply (Forall_impl _ _ _ Hls); intros l Hl; apply Hl).
    reflexivity. }
  destruct (main_counts lines) as (_ & Hf & Hw). split.
  - rewrite Hf. apply filter_blank_length.
  - rewrite Hw. apply concat_not_blank.
Qed.

Lemma blanked_line_counted_when_kept_witness :
  let lines := [ln "const a = 1;";
                ln "  const leadGrade = result.emailQA?.leadGrade;"] in
  step7 lines !! 1 = Some [] /\
  List.filter is_blank (step10 (step9 (step8 (step7 lines)))) = [[]].
Proof.
  cbv zeta.
  pose proof (blanked_line_counted_when_kept
                [ln "const a = 1;";
                 ln "  const leadGrade = result.emailQA?.leadGrade;"])
    as (_ & Hblank & _ & Hkept & _).
  split.
  - apply (Hblank 1 (ln "  const leadGrade = result.emailQA?.leadGrade;"));
      reflexivity.
  - rewrite Hkept; [reflexivity|]. repeat constructor.
Defined.

(** C10 as stated fails for a blanked line inside a region of step 8: the
    element is in the output of step 7, and step 8 drops it with the rest
    of the region, so the final count of this three-line file is one and
    no empty element is left to be counted. *)
Lemma blanked_line_in_region_not_counted :
  let lines := [ln "// 3. Save email content";
                ln "const leadGrade = result.emailQA.grade;";
                ln "// 4. Save client info"] in
  length (step7 lines) = 3 /\
  step7 lines !! 1 = Some [] /\
  fst (strip lines) = [ln "// 4. Save client info"] /\
  final_count (main lines) = 1.
Proof. cbv zeta. repeat split; reflexivity. Qed.

(** ** A later declaration that closes on its own line *)

Section StaleSkipClosed.

Variable needle : text.
Variable func_name : text.
Variable is_comment : text -> bool.

Lemma find_end_own_line (su : Z) (lines : list text) (i : nat) (l : text) :
  lines !! i = Some l ->
  (exists c, c < length l /\ closes_on [] l c) ->
  find_end su lines i = Some i.
Proof.
  intros Hl (c & Hc & Hclose). unfold find_end. rewrite (drop_S _ _ _ Hl).
  cbn [scan_lines]. generalize (scan_chars_spec l []).
  change (balance []) with 0%Z. change (has_open []) with false.
  destruct (scan_chars 0 false l); [reflexivity|].
  intros (_ & _ & Hno). exfalso. exact (Hno c Hc Hclose).
Qed.

Lemma stage_loop_second_on_one_line (A B M C : list text) (l1 l2 : text)
    (rm : list removed_record) :
  let lines := A ++ l1 :: B ++ M ++ l2 :: C in
  let i2 := S (length A) + length B + length M in
  Forall (fun l => contains needle l = false) A ->
  contains needle l1 = true ->
  scan_end lines (length A) (length A + length B) ->
  Forall (fun l => contains needle l = false) M ->
  contains needle l2 = true ->
  (exists c, c < length l2 /\ closes_on [] l2 c) ->
  Forall (fun l => contains needle l = false) C ->
  stage_loop needle func_name is_comment lines 0 lines (LoopState [] (-1) rm)
  = LoopState (A ++ M ++ C) (Z.of_nat i2 + 1)
      (rm ++ [(walk_back is_comment lines (length A) + 1,
               description func_name (length A + length B)
                 (walk_back is_comment lines (length A)));
              (walk_back is_comment lines i2 + 1,
               description func_name i2 (walk_back is_comment lines i2))]).
Proof.
  intros lines i2 HA Hl1 Hend HM Hl2 Hclose HC.
  assert (Hfind1 : find_end (-1) lines (length A)
                   = Some (length A + length B))
    by (apply find_end_complete; [lia|exact Hend]).
  assert (Hlook2 : lines !! i2 = Some l2).
  { subst lines i2.
    replace (A ++ l1 :: B ++ M ++ l2 :: C)
      with ((A ++ l1 :: B ++ M) ++ l2 :: C)
      by (rewrite <- app_assoc; cbn [app]; rewrite <- app_assoc; reflexivity).
    apply list_lookup_middle. rewrite !length_app. cbn [length].
    rewrite length_app. lia. }
  assert (Hfind2 : find_end (Z.of_nat (length A + length B) + 1) lines i2
                   = Some i2)
    by (apply (find_end_own_line _ _ _ l2); [exact Hlook2|exact Hclose]).
  unfold lines at 2.
  rewrite stage_loop_app, stage_loop_plain by (lia || exact HA).
  cbn [app Nat.add stage_loop].
  unfold stage_body at 1. cbn [skip_until new_lines removed_lines].
  change (0 <? -1)%Z with false. cbn [andb]. rewrite Hl1, Hfind1.
  rewrite stage_loop_app, stage_loop_skipped by lia.
  rewrite stage_loop_app, stage_loop_plain by (lia || exact HM).
  cbn [stage_loop]. unfold stage_body at 1.
  cbn [skip_until new_lines removed_lines].
  replace (Z.of_nat (S (length A) + length B + length M)
           <? Z.of_nat (length A + length B) + 1)%Z
    with false by (symmetry; apply Z.ltb_ge; lia).
  fold i2. rewrite andb_false_r, Hl2, Hfind2.
  rewrite stage_loop_plain by (subst i2; lia || exact HC).
  rewrite <- !app_assoc. reflexivity.
Qed.

End StaleSkipClosed.

(** X20.  After a first extent has been removed, a later declaration
    whose braces close on the declaration line itself is removed too, as
    an extent of that one line, and recorded: the stage then returns the
    lines outside the two extents and adds two audit records. *)
Theorem later_declaration_on_one_line (needle func_name : text)
    (is_comment : text -> bool) (A B M C : list text) (l1 l2 : text)
    (rm : list removed_record) :
  let lines := A ++ l1 :: B ++ M ++ l2 :: C in
  let i2 := S (length A) + length B + length M in
  Forall (fun l => contains needle l = false) A ->
  contains needle l1 = true ->
  scan_end lines (length A) (length A + length B) ->
  Forall (fun l => contains needle l = false) M ->
  contains needle l2 = true ->
  (exists c, c < length l2 /\ closes_on [] l2 c) ->
  Forall (fun l => contains needle l = false) C ->
  remove_function needle func_name is_comment lines rm
  = (A ++ M ++ C,
     rm ++ [(walk_back is_comment lines (length A) + 1,
             description func_name (length A + length B)
               (walk_back is_comment lines (length A)));
            (walk_back is_comment lines i2 + 1,
             description func_name i2 (walk_back is_comment lines i2))]).
Proof.
  intros lines i2 HA Hl1 Hend HM Hl2 Hclose HC. unfold remove_function.
  pose proof (stage_loop_second_on_one_line needle func_name is_comment
                A B M C l1 l2 rm HA Hl1 Hend HM Hl2 Hclose HC) as H.
  cbv zeta in H. subst lines i2. rewrite H. reflexivity.
Qed.

Lemma later_declaration_on_one_line_witness :
  step2 [ln "function extractContactInfo(a) {"; ln "  return a;"; ln "}";
         ln "const x = 1;";
         ln "function extractContactInfo(b) { return b; }";
         ln "const y = 2;"] []
  = ([ln "const x = 1;"; ln "const y = 2;"],
     [(1, txt "extractContactInfo function (3 lines)");
      (5, txt "extractContactInfo function (1 lines)")]).
Proof.
  unfold step2.
  etransitivity;
    [apply (later_declaration_on_one_line
              (txt "function extractContactInfo") (txt "extractContactInfo")
              is_comment2 [] [ln "  return a;"; ln "}"] [ln "const x = 1;"]
              [ln "const y = 2;"]
              (ln "function extractContactInfo(a) {")
              (ln "function extractContactInfo(b) { return b; }") [])
    |reflexivity].
  - constructor.
  - reflexivity.
  - apply (find_end_some (-1)). reflexivity.
  - repeat constructor.
  - reflexivity.
  - exists 43. split; [vm_compute; lia|]. split; reflexivity.
  - repeat constructor.
Defined.

(** * Further properties of Field-Injector *)

(** ** The files and the report of a run *)

Section RunFacts.

Lemma fold_inject_at_is_Some (specs : list (string * string * string))
    (q : string) (o : option text) :
  is_Some (fold_left (fun o spec => inject_at spec q o) specs o)
  <-> is_Some o.
Proof.
  revert o. induction specs as [|[[f s] t] specs IH]; intros o; [reflexivity|].
  cbn [fold_left]. rewrite IH. unfold inject_at.
  destruct (decide (f = q)); [apply fmap_is_Some|reflexivity].
Qed.

Lemma process_printed (w : world) (spec : string * string * string) :
  exists msg, printed (process w spec) = printed w ++ [msg].
Proof.
  destruct spec as [[f s] t]. unfold process.
  destruct (files w !! f) as [c|]; [|eexists; reflexivity].
  destruct (contains (marker (txt s)) c); [eexists; reflexivity|].
  case_bool_decide; eexists; reflexivity.
Qed.

Lemma fold_process_printed (specs : list (string * string * string))
    (w : world) :
  exists msgs, printed (fold_left process specs w) = printed w ++ msgs /\
               length msgs = length specs.
Proof.
  revert w. induction specs as [|spec specs IH]; intros w.
  - exists []. rewrite app_nil_r. split; reflexivity.
  - cbn [fold_left]. destruct (IH (process w spec)) as (msgs & Hm & Hlen).
    destruct (process_printed w spec) as (msg & Hmsg).
    exists (msg :: msgs). rewrite Hm, Hmsg, <- app_assoc.
    split; [reflexivity|]. cbn [length]. lia.
Qed.

End RunFacts.

(** X13.  A run creates no file and deletes none, and a file that is not
    on the list of analyzers holds after the run what it held before. *)
Theorem run_keeps_files (w : world) (q : string) :
  (is_Some (files (run w) !! q) <-> is_Some (files w !! q)) /\
  (q ∉ map (fun spec => spec.1.1) analyzers ->
   files (run w) !! q = files w !! q).
Proof.
  rewrite run_files. split; [apply fold_inject_at_is_Some|].
  apply fold_inject_at_absent.
Qed.

Lemma run_keeps_files_witness :
  let w := World {[ "analyzer.js"%string := txt "priority: 'high' }" ]} [] in
  files (run w) !! "analyzer.js"%string = Some (txt "priority: 'high' }").
Proof.
  cbv zeta.
  rewrite (proj2 (run_keeps_files
                    (World {[ "analyzer.js"%string
                              := txt "priority: 'high' }" ]} [])
                    "analyzer.js")).
  - apply lookup_singleton_eq.
  - apply (bool_decide_unpack _). vm_compute. exact I.
Defined.

(** X14.  Whatever the files, a run prints one line for each of the eight
    analyzers, after what was printed before, and then [Done!]. *)
Theorem run_prints_one_line_per_spec (w : world) :
  exists msgs, printed (run w) = printed w ++ msgs ++ [txt "Done!"] /\
               length msgs = 8.
Proof.
  destruct (fold_process_printed analyzers w) as (msgs & Hm & Hlen).
  exists msgs. unfold run. cbn [print printed]. rewrite Hm, <- app_assoc.
  split; [reflexivity|exact Hlen].
Qed.

(** X15.  After a run, the file of each analyzer on the list either holds
    the text it held before or holds the marker of its source name: a file
    that was rewritten is one the next run skips. *)
Theorem run_marks_what_it_changes (w : world)
    (filename source source_type : string) (content : text) :
  (filename, source, source_type) ∈ analyzers ->
  files w !! filename = Some content ->
  exists updated,
    files (run w) !! filename = Some updated /\
    (updated = content \/ contains (marker (txt source)) updated = true).
Proof.
  intros Hin Hfile.
  exists (inject (txt source) (txt source_type) content). split.
  - rewrite run_files, (fold_inject_at_in _ _ _ _ _ analyzers_NoDup Hin), Hfile.
    reflexivity.
  - unfold inject. destruct (contains (marker (txt source)) content) eqn:E;
      [left; reflexivity|].
    exact (passes_changed (txt source) (txt source_type) content).
Qed.

Lemma run_marks_what_it_changes_witness :
  let w := World {[ "analyzers/social-analyzer.js"%string
                    := txt "issues.push({ priority: 'low' });" ]} [] in
  exists updated,
    files (run w) !! "analyzers/social-analyzer.js"%string = Some updated /\
    (updated = txt "issues.push({ priority: 'low' });" \/
     contains (marker (txt "social-analyzer")) updated = true).
Proof.
  cbv zeta.
  apply (run_marks_what_it_changes _ "analyzers/social-analyzer.js"
           "social-analyzer" "social").
  - apply (bool_decide_unpack _). vm_compute. exact I.
  - apply lookup_singleton_eq.
Defined.

(** ** What a substitution pass can and cannot do *)

Section SubInsert.

Variable pattern : text -> option (nat * nat).
Variable ins : text.

(** A match is not empty and lies within the text. *)
Hypothesis pattern_span :
  forall s n1 n2, pattern s = Some (n1, n2) -> 0 < n1 + n2 <= length s.

Lemma sub_from_sublist (s : text) (k : nat) :
  drop k s `sublist_of` sub_from pattern ins k s.
Proof.
  revert k. induction s as [|c s IH]; intros k.
  - rewrite drop_nil. reflexivity.
  - destruct k as [|k]; [|exact (IH k)].
    cbn [sub_from drop]. destruct (pattern (c :: s)) as [[n1 n2]|] eqn:E.
    + apply pattern_span in E. cbn [length] in E.
      rewrite <- (take_drop n1 (c :: s)) at 1.
      apply sublist_app; [reflexivity|]. apply sublist_inserts_l.
      rewrite <- (take_drop n2 (drop n1 (c :: s))) at 1.
      apply sublist_app; [reflexivity|].
      rewrite drop_drop.
      assert (Hd : drop (n1 + n2) (c :: s) = drop (n1 + n2 - 1) s).
      { destruct (n1 + n2) as [|m]; [lia|]. cbn [drop].
        replace (S m - 1) with m by lia. reflexivity. }
      rewrite Hd. exact (IH (n1 + n2 - 1)).
    + apply sublist_skip. exact (IH 0).
Qed.

(** The pattern can only match where [head] holds. *)
Variable head : text -> bool.
Hypothesis pattern_head :
  forall s n, pattern s = Some n -> head s = true.

Lemma sub_no_head (s : text) :
  (forall k, head (drop k s) = false) -> sub pattern ins s = s.
Proof.
  unfold sub. induction s as [|c s IH]; intros Hh; [reflexivity|].
  cbn [sub_from]. destruct (pattern (c :: s)) as [n|] eqn:E.
  - apply pattern_head in E. pose proof (Hh 0) as H0. cbn [drop] in H0.
    rewrite H0 in E. discriminate.
  - f_equal. apply IH. intros k. exact (Hh (S k)).
Qed.

End SubInsert.

Section Keywords.

Lemma contains_false_drop (kw s : text) (k : nat) :
  contains kw s = false -> starts_with kw (drop k s) = false.
Proof.
  revert k. induction s as [|c s IH]; intros k H.
  - rewrite drop_nil. cbn [contains] in H. by apply orb_false_iff in H as [H _].
  - cbn [contains] in H. apply orb_false_iff in H as [Hh Ht].
    destruct k as [|k]; [exact Hh|]. exact (IH k Ht).
Qed.

Lemma lazy_until_length (cls : ascii -> bool) (s r : text) :
  lazy_until cls s = Some r -> length r < length s.
Proof.
  induction s as [|c s IH]; [discriminate|]. cbn [lazy_until].
  destruct (cls c && bool_decide (is_Some (closing s))).
  - intros [= <-]. simpl. lia.
  - destruct (Ascii.eqb c nl); [discriminate|].
    intros H. apply IH in H. simpl. lia.
Qed.

Lemma match_priority_span (s : text) (n1 n2 : nat) :
  match_priority s = Some (n1, n2) -> 0 < n1 + n2 <= length s.
Proof.
  unfold match_priority.
  destruct (lit (txt "priority:") s) as [s1|] eqn:E1; [|discriminate].
  cbn [mbind option_bind].
  destruct (one is_quote (skip_spaces s1)) as [s2|] eqn:E2; [|discriminate].
  cbn [mbind option_bind].
  destruct (alt _ s2) as [s3|] eqn:E3; [|discriminate].
  cbn [mbind option_bind].
  destruct (one is_quote s3) as [g2|] eqn:E4; [|discriminate].
  cbn [mbind option_bind].
  destruct (closing g2) as [r|] eqn:E5; [|discriminate].
  cbn [mbind option_bind]. unfold groups. intros [= <- <-].
  apply lit_length in E1. apply one_length in E2, E4.
  apply alt_length in E3. apply closing_length in E5.
  pose proof (skip_spaces_length s1). lia.
Qed.

Lemma match_last_field_span (s : text) (n1 n2 : nat) :
  match_last_field s = Some (n1, n2) -> 0 < n1 + n2 <= length s.
Proof.
  unfold match_last_field.
  destruct (alt _ s) as [s1|] eqn:E1; [|discriminate].
  cbn [mbind option_bind].
  destruct (lit (txt ":") s1) as [s2|] eqn:E2; [|discriminate].
  cbn [mbind option_bind].
  destruct (match skip_spaces s2 with
            | [] => None
            | c :: s3 =>
                if is_quote c then lazy_until is_quote s3
                else if is_backtick c then lazy_until is_backtick s3
                else None
            end) as [g2|] eqn:E3; [|discriminate].
  cbn [mbind option_bind].
  destruct (closing g2) as [r|] eqn:E4; [|discriminate].
  cbn [mbind option_bind]. unfold groups. intros [= <- <-].
  apply alt_length in E1. apply lit_length in E2. apply closing_length in E4.
  pose proof (skip_spaces_length s2) as Hsp.
  assert (length g2 < length (skip_spaces s2)).
  { destruct (skip_spaces s2) as [|c s3]; [discriminate|].
    destruct (is_quote c); [apply lazy_until_length in E3; simpl; lia|].
    destruct (is_backtick c); [|discriminate].
    apply lazy_until_length in E3. simpl. lia. }
  lia.
Qed.

Lemma match_priority_head (s : text) (n : nat * nat) :
  match_priority s = Some n -> starts_with (txt "priority:") s = true.
Proof.
  unfold match_priority, lit.
  destruct (starts_with (txt "priority:") s); [reflexivity|discriminate].
Qed.

Lemma match_last_field_head (s : text) (n : nat * nat) :
  match_last_field s = Some n ->
  starts_with (txt "recommendation") s
  || starts_with (txt "technical_details") s = true.
Proof.
  unfold match_last_field. cbn [alt]. unfold lit.
  destruct (starts_with (txt "recommendation") s); [reflexivity|].
  destruct (starts_with (txt "technical_details") s);
    [reflexivity|discriminate].
Qed.

End Keywords.

(** X16.  The two passes only insert: the string given, as [f.read()]
    returns it, is a subsequence of the string returned by pass A, by
    pass B and by the two in turn behind the marker test, which is the
    string given to [f.write]: the passes delete or replace no character
    of it.  What [open] does to the ends of lines when it reads the file
    comes before and is no part of this. *)
Theorem passes_only_insert (source source_type content : text) :
  content `sublist_of` pass_a source source_type content /\
  content `sublist_of` pass_b source source_type content /\
  content `sublist_of` inject source source_type content.
Proof.
  assert (Ha : forall c : text, c `sublist_of` pass_a source source_type c)
    by (intros c; exact (sub_from_sublist _ _ match_priority_span c 0)).
  assert (Hb : forall c : text, c `sublist_of` pass_b source source_type c)
    by (intros c; exact (sub_from_sublist _ _ match_last_field_span c 0)).
  split; [apply Ha|]. split; [apply Hb|].
  unfold inject. destruct (contains (marker source) content); [reflexivity|].
  etransitivity; [apply Ha|apply Hb].
Qed.

(** X17.  A file that holds none of [priority:], [recommendation] and
    [technical_details], and not the marker, is not written: both passes
    return the text as it is and the line printed is [No changes needed]. *)
Theorem process_no_keyword (w : world)
    (filename source source_type : string) (content : text) :
  files w !! filename = Some content ->
  contains (marker (txt source)) content = false ->
  contains (txt "priority:") content = false ->
  contains (txt "recommendation") content = false ->
  contains (txt "technical_details") content = false ->
  pass_b (txt source) (txt source_type)
    (pass_a (txt source) (txt source_type) content) = content /\
  process w (filename, source, source_type)
  = print w (txt "No changes needed for " ++ txt filename).
Proof.
  intros Hfile Hmark Hp Hr Ht.
  assert (Ha : pass_a (txt source) (txt source_type) content = content).
  { apply (sub_no_head _ _ (starts_with (txt "priority:"))
             match_priority_head).
    intros k. exact (contains_false_drop _ _ k Hp). }
  assert (Hb : pass_b (txt source) (txt source_type) content = content).
  { apply (sub_no_head _ _
             (fun s => starts_with (txt "recommendation") s
                       || starts_with (txt "technical_details") s)
             match_last_field_head).
    intros k. rewrite (contains_false_drop _ _ k Hr),
                (contains_false_drop _ _ k Ht). reflexivity. }
  split; [rewrite Ha; exact Hb|].
  unfold process. rewrite Hfile, Hmark, Ha, Hb.
  rewrite bool_decide_eq_false_2 by (intros H; apply H; reflexivity).
  reflexivity.
Qed.

Lemma process_no_keyword_witness :
  let w := World {[ "analyzers/seo-analyzer.js"%string
                    := txt "export const version = 2;" ]} [txt "start"] in
  process w ("analyzers/seo-analyzer.js", "seo-analyzer", "technical")%string
  = World (files w)
      [txt "start"; txt "No changes needed for analyzers/seo-analyzer.js"].
Proof.
  cbv zeta.
  etransitivity;
    [apply (process_no_keyword
              (World {[ "analyzers/seo-analyzer.js"%string
                        := txt "export const version = 2;" ]} [txt "start"])
              "analyzers/seo-analyzer.js" "seo-analyzer" "technical"
              (txt "export const version = 2;"))
    |reflexivity];
    [apply lookup_singleton_eq|reflexivity..].
Defined.

(** ** The two patterns on a field followed by a closing brace *)

Section Blocks.

Lemma lit_app (p x : text) : lit p (p ++ x) = Some x.
Proof. unfold lit. rewrite starts_with_app, drop_app_length. reflexivity. Qed.

Lemma quote_facts (q : ascii) :
  is_quote q = true ->
  is_space q = false /\ Ascii.eqb q "}" = false /\ is_backtick q = false.
Proof.
  unfold is_quote. intros H. apply orb_true_iff in H as [H|H];
    apply Ascii.eqb_eq in H; subst q; repeat split.
Qed.

Lemma backtick_facts (q : ascii) :
  is_backtick q = true ->
  is_space q = false /\ Ascii.eqb q "}" = false /\ is_quote q = false.
Proof.
  unfold is_backtick. intros H. apply Ascii.eqb_eq in H. subst q.
  repeat split.
Qed.

Lemma skip_spaces_stop (ws : text) (c : ascii) (x : text) :
  forallb is_space ws = true -> is_space c = false ->
  skip_spaces (ws ++ c :: x) = c :: x.
Proof.
  intros Hws Hc. rewrite skip_spaces_app by exact Hws.
  cbn [skip_spaces]. rewrite Hc. reflexivity.
Qed.

Lemma closing_brace (ws post : text) :
  forallb is_space ws = true -> closing (ws ++ "}"%char :: post) = Some post.
Proof.
  intros Hws. unfold closing. rewrite skip_spaces_stop by (exact Hws || reflexivity).
  reflexivity.
Qed.

Lemma match_priority_field (ws1 ws2 value post : text) (q1 q2 : ascii) :
  In value [txt "critical"; txt "high"; txt "medium"; txt "low"] ->
  is_quote q1 = true -> is_quote q2 = true ->
  forallb is_space ws1 = true -> forallb is_space ws2 = true ->
  match_priority
    ((txt "priority:" ++ ws1 ++ q1 :: value ++ [q2])
     ++ (ws2 ++ ["}"%char]) ++ post)
  = Some (length (txt "priority:" ++ ws1 ++ q1 :: value ++ [q2]),
          length (ws2 ++ ["}"%char])).
Proof.
  intros Hv Hq1 Hq2 Hws1 Hws2.
  destruct (quote_facts q1 Hq1) as (Hsp1 & _ & _).
  unfold match_priority.
  replace ((txt "priority:" ++ ws1 ++ q1 :: value ++ [q2])
           ++ (ws2 ++ ["}"%char]) ++ post)
    with (txt "priority:"
          ++ (ws1 ++ q1 :: (value ++ q2 :: (ws2 ++ "}"%char :: post)))).
  2:{ rewrite <- !app_assoc. cbn [app]. rewrite <- !app_assoc. reflexivity. }
  rewrite lit_app. cbn [mbind option_bind].
  rewrite skip_spaces_stop by assumption. cbn [one]. rewrite Hq1.
  cbn [mbind option_bind].
  assert (Halt : alt [txt "critical"; txt "high"; txt "medium"; txt "low"]
                   (value ++ q2 :: ws2 ++ "}"%char :: post)
                 = Some (q2 :: ws2 ++ "}"%char :: post)).
  { cbn [In] in Hv. destruct Hv as [<-|[<-|[<-|[<-|[]]]]]; reflexivity. }
  rewrite Halt. cbn [mbind option_bind one]. rewrite Hq2.
  cbn [mbind option_bind]. rewrite closing_brace by exact Hws2.
  cbn [mbind option_bind]. f_equal. unfold groups.
  repeat (rewrite !length_app || cbn [length]). f_equal; lia.
Qed.

(** Group 2 cannot begin in a text without closing brace that is followed
    by a character that is neither white space nor the brace. *)
Lemma closing_no_brace (body : text) (q : ascii) (x : text) :
  forallb (fun c => negb (Ascii.eqb c nl) && negb (Ascii.eqb c "}")) body
  = true ->
  is_space q = false -> Ascii.eqb q "}" = false ->
  closing (body ++ q :: x) = None.
Proof.
  intros Hbody Hsp Hbr. unfold closing.
  induction body as [|c body IH]; cbn [app skip_spaces].
  - rewrite Hsp. cbn [one]. rewrite Hbr. reflexivity.
  - cbn [forallb] in Hbody. apply andb_true_iff in Hbody as [Hc Hbody].
    apply andb_true_iff in Hc as [_ Hc]. apply negb_true_iff in Hc.
    destruct (is_space c); [exact (IH Hbody)|].
    cbn [one]. rewrite Hc. reflexivity.
Qed.

Lemma lazy_until_body (cls : ascii -> bool) (body : text) (q : ascii)
    (x : text) :
  cls q = true -> is_space q = false -> Ascii.eqb q "}" = false ->
  forallb (fun c => negb (Ascii.eqb c nl) && negb (Ascii.eqb c "}")) body
  = true ->
  is_Some (closing x) ->
  lazy_until cls (body ++ q :: x) = Some x.
Proof.
  intros Hq Hsp Hbr Hbody Hx.
  induction body as [|c body IH]; cbn [app lazy_until].
  - rewrite Hq, bool_decide_eq_true_2 by exact Hx. reflexivity.
  - pose proof Hbody as Hall. cbn [forallb] in Hbody.
    apply andb_true_iff in Hbody as [Hc Hbody].
    apply andb_true_iff in Hc as [Hnl _]. apply negb_true_iff in Hnl.
    rewrite (closing_no_brace body q x Hbody Hsp Hbr).
    rewrite bool_decide_eq_false_2 by (intros [? ?]; discriminate).
    rewrite andb_false_r, Hnl. exact (IH Hbody).
Qed.

Lemma match_last_field_field (ws1 ws2 key body post : text) (q1 q2 : ascii) :
  In key [txt "recommendation"; txt "technical_details"] ->
  forallb is_space ws1 = true -> forallb is_space ws2 = true ->
  (is_quote q1 = true /\ is_quote q2 = true) \/
  (is_backtick q1 = true /\ is_backtick q2 = true) ->
  forallb (fun c => negb (Ascii.eqb c nl) && negb (Ascii.eqb c "}")) body
  = true ->
  match_last_field
    ((key ++ txt ":" ++ ws1 ++ q1 :: body ++ [q2])
     ++ (ws2 ++ ["}"%char]) ++ post)
  = Some (length (key ++ txt ":" ++ ws1 ++ q1 :: body ++ [q2]),
          length (ws2 ++ ["}"%char])).
Proof.
  intros Hkey Hws1 Hws2 Hq Hbody.
  unfold match_last_field.
  replace ((key ++ txt ":" ++ ws1 ++ q1 :: body ++ [q2])
           ++ (ws2 ++ ["}"%char]) ++ post)
    with (key ++ (txt ":"
          ++ (ws1 ++ q1 :: (body ++ q2 :: (ws2 ++ "}"%char :: post))))).
  2:{ rewrite <- !app_assoc. cbn [app]. rewrite <- !app_assoc. reflexivity. }
  assert (Halt : forall x, alt [txt "recommendation"; txt "technical_details"]
                             (key ++ x) = Some x).
  { intros x. cbn [In] in Hkey. destruct Hkey as [<-|[<-|[]]]; reflexivity. }
  rewrite Halt. cbn [mbind option_bind]. rewrite lit_app.
  cbn [mbind option_bind].
  assert (Hclose : is_Some (closing (ws2 ++ "}"%char :: post)))
    by (rewrite closing_brace by exact Hws2; eexists; reflexivity).
  destruct Hq as [[Hq1 Hq2]|[Hq1 Hq2]].
  - destruct (quote_facts q1 Hq1) as (Hsp1 & _ & _).
    destruct (quote_facts q2 Hq2) as (Hsp2 & Hbr2 & _).
    rewrite skip_spaces_stop by assumption. rewrite Hq1.
    rewrite (lazy_until_body is_quote body q2 _ Hq2 Hsp2 Hbr2 Hbody Hclose).
    cbn [mbind option_bind]. rewrite closing_brace by exact Hws2.
    cbn [mbind option_bind]. f_equal. unfold groups.
    repeat (rewrite !length_app || cbn [length]). f_equal; lia.
  - destruct (backtick_facts q1 Hq1) as (Hsp1 & _ & Hnq1).
    destruct (backtick_facts q2 Hq2) as (Hsp2 & Hbr2 & _).
    rewrite skip_spaces_stop by assumption. rewrite Hnq1, Hq1.
    rewrite (lazy_until_body is_backtick body q2 _ Hq2 Hsp2 Hbr2 Hbody Hclose).
    cbn [mbind option_bind]. rewrite closing_brace by exact Hws2.
    cbn [mbind option_bind]. f_equal. unfold groups.
    repeat (rewrite !length_app || cbn [length]). f_equal; lia.
Qed.

End Blocks.

(** X18.  Pass A on a priority field of any of the four values, between
    quotes of either kind (the two need not be the same), with any white
    space after the colon and before the closing brace: the two new fields
    are put right after the closing quote, and the white space and the
    brace follow them unchanged.  The text before the field and the text
    after the brace are rewritten on their own. *)
Theorem pass_a_priority_field
    (source source_type pre post ws1 ws2 value : text) (q1 q2 : ascii) :
  In value [txt "critical"; txt "high"; txt "medium"; txt "low"] ->
  is_quote q1 = true -> is_quote q2 = true ->
  forallb is_space ws1 = true -> forallb is_space ws2 = true ->
  pass_a source source_type
    (pre ++ (txt "priority:" ++ ws1 ++ q1 :: value ++ [q2])
         ++ (ws2 ++ ["}"%char]) ++ post)
  = pass_a source source_type pre
    ++ (txt "priority:" ++ ws1 ++ q1 :: value ++ [q2])
    ++ inserted source source_type
    ++ (ws2 ++ ["}"%char]) ++ pass_a source source_type post.
Proof.
  intros Hv Hq1 Hq2 Hws1 Hws2.
  pose proof (match_priority_field ws1 ws2 value post q1 q2
                Hv Hq1 Hq2 Hws1 Hws2) as Hm.
  set (g1 := txt "priority:" ++ ws1 ++ q1 :: value ++ [q2]) in *.
  set (g2 := ws2 ++ ["}"%char]) in *.
  assert (Hblock : pass_a source source_type ((g1 ++ g2) ++ post)
                   = g1 ++ inserted source source_type ++ g2
                     ++ pass_a source source_type post).
  { unfold pass_a.
    rewrite (sub_match _ _ (g1 ++ g2) post (length g1) (length g2)).
    - rewrite take_app_length, drop_app_length. reflexivity.
    - rewrite <- app_assoc. exact Hm.
    - subst g2. rewrite length_app. simpl. lia.
    - rewrite length_app. reflexivity. }
  assert (Hp : g1 ++ g2 ++ post
               = "p"%char :: (txt "riority:" ++ ws1 ++ q1 :: value ++ [q2])
                             ++ g2 ++ post) by reflexivity.
  rewrite Hp, pass_a_app, <- Hp. f_equal.
  rewrite app_assoc. exact Hblock.
Qed.

Lemma pass_a_priority_field_witness :
  pass_a (txt "seo-analyzer") (txt "technical")
    (txt "{ title: 'x', priority:  " ++ [dquote] ++ txt "medium'   }")
  = txt "{ title: 'x', priority:  " ++ [dquote] ++ txt "medium'," ++ [nl]
    ++ txt "      source: 'seo-analyzer'," ++ [nl]
    ++ txt "      source_type: 'technical'   }".
Proof.
  etransitivity;
    [apply (pass_a_priority_field (txt "seo-analyzer") (txt "technical")
              (txt "{ title: 'x', ") [] (txt "  ") (txt "   ") (txt "medium")
              dquote "'")
    |reflexivity];
    [right; right; left; reflexivity|reflexivity..].
Defined.

(** X19.  Pass B on a [recommendation] or [technical_details] field whose
    value is a string between quotes, or between backticks, on one line and
    without closing brace inside, followed by white space and a closing
    brace: the two new fields are put right after the closing quote.  The
    string may hold quotes of its own. *)
Theorem pass_b_string_field
    (source source_type post ws1 ws2 key body : text) (q1 q2 : ascii) :
  In key [txt "recommendation"; txt "technical_details"] ->
  forallb is_space ws1 = true -> forallb is_space ws2 = true ->
  (is_quote q1 = true /\ is_quote q2 = true) \/
  (is_backtick q1 = true /\ is_backtick q2 = true) ->
  forallb (fun c => negb (Ascii.eqb c nl) && negb (Ascii.eqb c "}")) body
  = true ->
  pass_b source source_type
    ((key ++ txt ":" ++ ws1 ++ q1 :: body ++ [q2])
     ++ (ws2 ++ ["}"%char]) ++ post)
  = (key ++ txt ":" ++ ws1 ++ q1 :: body ++ [q2])
    ++ inserted source source_type
    ++ (ws2 ++ ["}"%char]) ++ pass_b source source_type post.
Proof.
  intros Hkey Hws1 Hws2 Hq Hbody.
  pose proof (match_last_field_field ws1 ws2 key body post q1 q2
                Hkey Hws1 Hws2 Hq Hbody) as Hm.
  set (g1 := key ++ txt ":" ++ ws1 ++ q1 :: body ++ [q2]) in *.
  set (g2 := ws2 ++ ["}"%char]) in *.
  unfold pass_b. rewrite app_assoc.
  rewrite (sub_match _ _ (g1 ++ g2) post (length g1) (length g2)).
  - rewrite take_app_length, drop_app_length. reflexivity.
  - rewrite <- app_assoc. exact Hm.
  - subst g2. rewrite length_app. simpl. lia.
  - rewrite length_app. reflexivity.
Qed.

Lemma pass_b_string_field_witness :
  pass_b (txt "content-analyzer") (txt "technical")
    (txt "recommendation: " ++ [dquote] ++ txt "Don't repeat the title"
     ++ [dquote; nl] ++ txt "    }); done")
  = txt "recommendation: " ++ [dquote] ++ txt "Don't repeat the title"
    ++ [dquote] ++ txt "," ++ [nl]
    ++ txt "      source: 'content-analyzer'," ++ [nl]
    ++ txt "      source_type: 'technical'" ++ [nl] ++ txt "    }); done".
Proof.
  etransitivity;
    [apply (pass_b_string_field (txt "content-analyzer") (txt "technical")
              (txt "); done") (txt " ") (nl :: txt "    ")
              (txt "recommendation") (txt "Don't repeat the title")
              dquote dquote)
    |reflexivity];
    [left; reflexivity|reflexivity|reflexivity
    |left; split; reflexivity|reflexivity].
Defined.
